(** * NarrativeRabbit: readiness scoring, API error handling and story filters

    A shallow embedding of the parts of the repository that carry
    algorithmic content:

    - the Python [AdoptionReadinessScorer] as written in the quick-reference
      guide (weighted readiness score, trust score, narrative alignment,
      trajectory forecast) and the guide's aggregation pattern;
    - the TypeScript API client [narrativeAPI] (services/api.ts);
    - the [StoriesListPage] client-side filters and the groups badge of
      [StoryCard] and [StoryDetailPage].

    The orchestrator and the narrative gap analyzer have no code in the
    sources; their models follow the specification and say so.

    Python floats are idealised as rationals ([Q]) for the quantified
    statements; concrete evaluations are repeated in IEEE binary64
    ([PrimFloat]), the arithmetic Python really uses. *)

From Stdlib Require Import QArith Qminmax Lqa Lia Floats Ascii String.
From stdpp Require Import base list strings gmap.
From stdpp Require Import sorting.

Set Warnings "-inexact-float,-register-all".

(** ** Strings *)

(** ASCII case folding: the part of Python's [str.lower] and JavaScript's
    [String.prototype.toLowerCase] that the marker tables and the search
    box rely on. *)
Definition lower_ascii (c : ascii) : ascii :=
  let n := nat_of_ascii c in
  if (65 <=? n)%nat && (n <=? 90)%nat then ascii_of_nat (n + 32) else c.

Fixpoint lower (s : string) : string :=
  match s with
  | EmptyString => EmptyString
  | String c s' => String (lower_ascii c) (lower s')
  end.

(** [str_includes s sub]: [sub in s] (Python), [s.includes(sub)]
    (JavaScript). *)
Fixpoint str_includes (s sub : string) : bool :=
  String.prefix sub s ||
  match s with
  | EmptyString => false
  | String _ s' => str_includes s' sub
  end.

(** What [str_includes] is meant to decide: [sub] occurs in [s]. *)
Definition occurs_in (sub s : string) : Prop :=
  exists pre post : string, s = (pre ++ sub ++ post)%string.

(** [Array.prototype.includes] on an array of strings. *)
Definition arr_includes (l : list string) (x : string) : bool :=
  existsb (String.eqb x) l.

(** ** Rational comparisons as the code writes them *)

Definition Qgtb (x y : Q) : bool := negb (Qle_bool x y).
Definition Qltb (x y : Q) : bool := negb (Qle_bool y x).

(** [sum(l)]: Python's [sum] starts from 0 and adds from left to right. *)
Definition Qsum (l : list Q) : Q := fold_left Qplus l 0%Q.

(** ** AdoptionReadinessScorer (Python) *)

Module AdoptionReadinessScorer.

(** The keys of the [dimensions] and [weights] dict literals of
    [assess_readiness]. *)
Inductive Dim :=
| narrative_alignment
| cultural_receptivity
| trust_foundation
| learning_orientation
| leadership_coherence
| coordination.

(** Iteration order of [for dim in dimensions]: insertion order of the
    dict literal. *)
Definition dimension_keys : list Dim :=
  [narrative_alignment; cultural_receptivity; trust_foundation;
   learning_orientation; leadership_coherence; coordination].

(** [sum(dimensions[dim]['score'] * weights[dim] for dim in dimensions)],
    over any number type. *)
Section WeightedSum.
Context {num : Type} (zero : num) (add mul : num -> num -> num).
Variable weights : Dim -> num.

Definition weighted_sum (dimensions : Dim -> num) : num :=
  fold_left (fun acc dim => add acc (mul (dimensions dim) (weights dim)))
            dimension_keys zero.
End WeightedSum.

(** [dimensions[dim]['score']] for each of the six keys. *)
Definition Dimensions := Dim -> Q.

Definition scores (na cr tf lo lc co : Q) : Dimensions := fun dim =>
  match dim with
  | narrative_alignment => na
  | cultural_receptivity => cr
  | trust_foundation => tf
  | learning_orientation => lo
  | leadership_coherence => lc
  | coordination => co
  end.

(** The same score in every dimension. *)
Definition constant_scores (x : Q) : Dimensions := fun _ => x.

(** The [weights] dict of [assess_readiness]. *)
Definition weights : Dim -> Q := fun dim =>
  match dim with
  | narrative_alignment => 0.20
  | cultural_receptivity => 0.20
  | trust_foundation => 0.15
  | learning_orientation => 0.15
  | leadership_coherence => 0.15
  | coordination => 0.15
  end%Q.

(** [overall_score], returned under ['overall_readiness'] with no further
    processing. *)
Definition overall_score (dimensions : Dimensions) : Q :=
  weighted_sum 0%Q Qplus Qmult weights dimensions.

(** The weights listed for the scorer in the implementation status
    document (20/20/20/15/15/10 percent); they differ from the dict in
    the code. *)
Definition documented_weights : Dim -> Q := fun dim =>
  match dim with
  | narrative_alignment => 0.20
  | cultural_receptivity => 0.20
  | trust_foundation => 0.20
  | learning_orientation => 0.15
  | leadership_coherence => 0.15
  | coordination => 0.10
  end%Q.

Definition documented_weights_f64 : Dim -> float := fun dim =>
  match dim with
  | narrative_alignment => 0.20
  | cultural_receptivity => 0.20
  | trust_foundation => 0.20
  | learning_orientation => 0.15
  | leadership_coherence => 0.15
  | coordination => 0.10
  end%float.

(** The same computation in binary64. *)
Definition weights_f64 : Dim -> float := fun dim =>
  match dim with
  | narrative_alignment => 0.20
  | cultural_receptivity => 0.20
  | trust_foundation => 0.15
  | learning_orientation => 0.15
  | leadership_coherence => 0.15
  | coordination => 0.15
  end%float.

Definition overall_score_f64 (dimensions : Dim -> float) : float :=
  weighted_sum 0%float PrimFloat.add PrimFloat.mul weights_f64 dimensions.

(** The scenario of the specification: scores 0.8, 0.7, 0.6, 0.5, 0.4,
    0.3 in key order. *)
Definition scenario_scores : Dimensions :=
  scores 0.8 0.7 0.6 0.5 0.4 0.3.

Definition scenario_scores_f64 : Dim -> float := fun dim =>
  match dim with
  | narrative_alignment => 0.8
  | cultural_receptivity => 0.7
  | trust_foundation => 0.6
  | learning_orientation => 0.5
  | leadership_coherence => 0.4
  | coordination => 0.3
  end%float.

(** *** Trajectory forecast *)

Inductive Trajectory := accelerating | stalling | uncertain.

(** [forecast_adoption_trajectory]: the ['predicted_trajectory'] entry.
    [trend] is [time_series['trend']], a Python string produced by
    [_analyze_narrative_time_series]. *)
Definition forecast_adoption_trajectory
    (trend : string) (dimensions : Dimensions) : Trajectory :=
  if String.eqb trend "positive" && Qgtb (dimensions cultural_receptivity) 0.6
  then accelerating
  else if String.eqb trend "negative" || Qltb (dimensions trust_foundation) 0.4
  then stalling
  else uncertain.

(** The same decision on binary64 scores. *)
Definition forecast_adoption_trajectory_f64
    (trend : string) (cultural_receptivity_score trust_foundation_score : float)
    : Trajectory :=
  if String.eqb trend "positive" && PrimFloat.ltb 0.6 cultural_receptivity_score
  then accelerating
  else if String.eqb trend "negative" || PrimFloat.ltb trust_foundation_score 0.4
  then stalling
  else uncertain.

(** *** Trust score *)

(** A story as the graph query returns it: a dict of string properties. *)
Abbreviation story := (gmap string string).

(** [s.get('summary', '').lower()] *)
Definition summary_lower (s : story) : string :=
  lower (default ""%string (s !! "summary"%string)).

(** [any(ind in s.get('summary', '').lower() for ind in indicators)] *)
Definition mentions (indicators : list string) (s : story) : bool :=
  existsb (fun ind => str_includes (summary_lower s) ind) indicators.

(** [sum(1 for s in all_stories if ...)] *)
Definition count_mentions (indicators : list string) (all_stories : list story) : Z :=
  Z.of_nat (length (List.filter (mentions indicators) all_stories)).

Definition trust_positive : list string :=
  ["delivered"; "followed through"; "transparent"; "listened"]%string.

Definition trust_negative : list string :=
  ["promised but"; "abandoned"; "top-down"; "no one asked"]%string.

Record TrustLevels := {
  trust_score : Q;
  positive_signals : Z;
  negative_signals : Z
}.

(** [score_trust_levels], from the result of [_get_all_ai_stories]; the
    ['interpretation'] string is left out. *)
Definition score_trust_levels (all_stories : list story) : TrustLevels :=
  let positive_count := count_mentions trust_positive all_stories in
  let negative_count := count_mentions trust_negative all_stories in
  let total := (positive_count + negative_count)%Z in
  {| trust_score :=
       if (0 <? total)%Z then (inject_Z positive_count / inject_Z total)%Q
       else 0.5%Q;
     positive_signals := positive_count;
     negative_signals := negative_count |}.

(** *** Narrative alignment *)

(** [for i, group1 in enumerate(groups): for group2 in groups[i+1:]] *)
Fixpoint group_pairs {A} (groups : list A) : list (A * A) :=
  match groups with
  | [] => []
  | group1 :: rest => map (pair group1) rest ++ group_pairs rest
  end.

Section NarrativeAlignment.
(** [_calculate_narrative_alignment] is not part of the guide. *)
Variable calculate_narrative_alignment : list story -> list story -> Q.

Definition alignment_scores (stories_by_group : list (string * list story)) : list Q :=
  map (fun p => calculate_narrative_alignment (snd (fst p)) (snd (snd p)))
      (group_pairs stories_by_group).

(** The ['score'] of [score_narrative_alignment], from the dict returned by
    [_get_stories_by_group] (keys in insertion order). *)
Definition score_narrative_alignment
    (stories_by_group : list (string * list story)) : Q :=
  let l := alignment_scores stories_by_group in
  match l with
  | [] => 0
  | _ => Qsum l / inject_Z (Z.of_nat (length l))
  end%Q.
End NarrativeAlignment.

(** *** The guide's aggregation pattern *)

Inductive PatternDim := dimension_a | dimension_b | dimension_c | dimension_d.

Definition pattern_weights (dim : PatternDim) : Q :=
  match dim with
  | dimension_a => 0.3
  | dimension_b => 0.3
  | dimension_c => 0.2
  | dimension_d => 0.2
  end%Q.

(** [aggregate_scores]: [return min(overall, 1.0)  # Cap at 1.0] *)
Definition aggregate_scores (dimension_scores : PatternDim -> Q) : Q :=
  let overall :=
    fold_left (fun acc dim => acc + dimension_scores dim * pattern_weights dim)%Q
              [dimension_a; dimension_b; dimension_c; dimension_d] 0%Q in
  Qmin overall 1.



(** The clamp the guide recommends for a single score:
    [min(max(raw_score, 0.0), 1.0)]. *)
Definition clamp01 (raw_score : Q) : Q := Qmin (Qmax raw_score 0) 1.

End AdoptionReadinessScorer.

(** ** Exceptions *)

(** The result of running code that may raise: Python's [raise] and
    JavaScript's [throw], a rejected promise once awaited. *)
Inductive Completion (E A : Type) :=
| Returns (a : A)
| Throws (e : E).
Arguments Returns {E A} a.
Arguments Throws {E A} e.

#[export] Instance completion_ret {E} : MRet (Completion E) := fun A a => Returns a.
#[export] Instance completion_bind {E} : MBind (Completion E) := fun A B f c =>
  match c with
  | Returns a => f a
  | Throws e => Throws e
  end.

(** [try { body } catch (e) { handler }] *)
Definition try_catch {E A} (body : Completion E A) (handler : E -> Completion E A)
    : Completion E A :=
  match body with
  | Returns a => Returns a
  | Throws e => handler e
  end.

(** ** NarrativeGapAnalyzer: vocabulary gap *)

Module NarrativeGapAnalyzer.

(** Modelled from the spec: the [Story] of the data model, reduced to the
    fields the vocabulary gap reads (the analyzer's code is not in the
    sources). *)
Record Story := {
  story_id : string;
  concepts_mentioned : gset string
}.

(** Modelled from the spec: the concept-term set mentioned in a set of
    stories. *)
Definition concept_terms (stories : list Story) : gset string :=
  ⋃ (map concepts_mentioned stories).

(** Modelled from the spec: gap = 1 - (|intersection| / |union|), guarded
    against union = 0, where it is defined as 0. *)
Definition vocabulary_gap (official actual : list Story) : Q :=
  let o := concept_terms official in
  let a := concept_terms actual in
  let union := size (o ∪ a) in
  if (union =? 0)%nat then 0%Q
  else (1 - inject_Z (Z.of_nat (size (o ∩ a))) / inject_Z (Z.of_nat union))%Q.

(** Modelled from the spec: the mean of a list of sentiments, each in
    [-1,1]. *)
Definition mean (sentiments : list Q) : Q :=
  (Qsum sentiments / inject_Z (Z.of_nat (length sentiments)))%Q.

(** Modelled from the spec: sentiment gap = mean(actual.sentiment) -
    mean(official.sentiment), 0 when either set is empty. *)
Definition sentiment_gap (official actual : list Q) : Q :=
  match official, actual with
  | [], _ | _, [] => 0
  | _, _ => mean actual - mean official
  end%Q.

(** An official story about the copilot and automation, employee stories
    about the copilot and about job loss. *)
Definition example_official : list Story :=
  [ {| story_id := "official-1"; concepts_mentioned := {["copilot"; "automation"]} |} ].

Definition example_actual : list Story :=
  [ {| story_id := "actual-1"; concepts_mentioned := {["copilot"]} |};
    {| story_id := "actual-2"; concepts_mentioned := {["job loss"]} |} ].

End NarrativeGapAnalyzer.

(** ** AnalysisOrchestrator: partial failure *)

Module AnalysisOrchestrator.

(** Modelled from the spec: the five analyzers the orchestrator invokes (the
    orchestrator's code is not in the sources). *)
Inductive Analyzer :=
| NarrativeGap
| FrameCompetition
| CulturalSignal
| Resistance
| AdoptionReadiness.

(** Modelled from the spec: the analyzers in the order of the component
    list. *)
Definition analyzers : list Analyzer :=
  [NarrativeGap; FrameCompetition; CulturalSignal; Resistance; AdoptionReadiness].

(** Modelled from the spec: a section of the orchestrator's report, either
    the analyzer's score or a failure flag with an error note. *)
Inductive SectionReport :=
| SectionOk (score : Q)
| SectionFailed (error_note : string).

(** Modelled from the spec: the orchestrator's report, reduced to the
    per-analyzer sections, the weights in use and the composite score. *)
Record Report := {
  section : Analyzer -> SectionReport;
  weight_used : Analyzer -> Q;
  composite_score : Q
}.

(** Modelled from the spec: what a section contributes to the composite
    score. *)
Definition section_score (s : SectionReport) : Q :=
  match s with
  | SectionOk score => score
  | SectionFailed _ => 0
  end.

(** Modelled from the spec: the section is not flagged as failed. *)
Definition section_ok (s : SectionReport) : bool :=
  match s with
  | SectionOk _ => true
  | SectionFailed _ => false
  end.

(** Modelled from the spec: an analyzer failure is caught at the
    orchestrator boundary and its section is marked failed with the
    error as note. *)
Definition run_section (invocation : Completion string Q) : SectionReport :=
  match try_catch (score ← invocation; mret (SectionOk score))
                  (fun error => mret (SectionFailed error)) with
  | Returns s => s
  | Throws error => SectionFailed error
  end.

(** Modelled from the spec: the weights of the analyzers that did not fail
    are re-normalized proportionally; a failed analyzer weighs nothing. *)
Definition renormalize (weights : Analyzer -> Q) (sections : Analyzer -> SectionReport)
    : Analyzer -> Q :=
  let remaining :=
    Qsum (map weights (List.filter (fun a => section_ok (sections a)) analyzers)) in
  fun a => if section_ok (sections a) then (weights a / remaining)%Q else 0%Q.

(** Modelled from the spec: [run_comprehensive_analysis] invokes the five
    analyzers, catches their failures and aggregates what remains; it
    returns a report in every case. *)
Definition run_comprehensive_analysis
    (weights : Analyzer -> Q) (invoke : Analyzer -> Completion string Q)
    : Completion string Report :=
  let sections := fun a => run_section (invoke a) in
  let used := renormalize weights sections in
  mret {| section := sections;
          weight_used := used;
          composite_score :=
            Qsum (map (fun a => used a * section_score (sections a))%Q analyzers) |}.

End AnalysisOrchestrator.

(** ** JavaScript values *)

Module JS.

(** The values a JSON response body can hold, and [undefined]. *)
Inductive JValue :=
| JUndefined
| JNull
| JBool (b : bool)
| JNumber (x : float)
| JString (s : string)
| JArray (items : list JValue)
| JObject (props : gmap string JValue).

(** What the API client can catch: the rejection of the HTTP request and the
    [TypeError] of calling something that is not a function. *)
Inductive JsError :=
| AxiosError (message : string)
| TypeError (message : string).

(** Truthiness: [!!v]. *)
Definition truthy (v : JValue) : bool :=
  match v with
  | JUndefined | JNull => false
  | JBool b => b
  | JNumber x => negb (PrimFloat.eqb x 0 || negb (PrimFloat.eqb x x))
  | JString s => negb (String.eqb s "")
  | JArray _ | JObject _ => true
  end.

(** [Array.isArray(v)] *)
Definition isArray (v : JValue) : bool :=
  match v with
  | JArray _ => true
  | _ => false
  end.

(** [typeof v === 'object'] *)
Definition typeof_object (v : JValue) : bool :=
  match v with
  | JNull | JArray _ | JObject _ => true
  | _ => false
  end.

(** [v.name] for a [v] that is neither [null] nor [undefined] and a [name]
    that is no built-in property of arrays and strings ([id], [type],
    [summary], [nodes], [links]). *)
Definition get_prop (v : JValue) (name : string) : JValue :=
  match v with
  | JObject props => default JUndefined (props !! name)
  | _ => JUndefined
  end.

(** [v?.name] *)
Definition opt_prop (v : JValue) (name : string) : JValue :=
  match v with
  | JUndefined | JNull => JUndefined
  | _ => get_prop v name
  end.

(** [v?.[0]] *)
Definition opt_first (v : JValue) : JValue :=
  match v with
  | JArray items => default JUndefined (head items)
  | JString (String c _) => JString (String c EmptyString)
  | JObject props => default JUndefined (props !! "0"%string)
  | _ => JUndefined
  end.

(** The array itself when [v] is one, [[]] otherwise:
    [Array.isArray(v) ? v : []]. *)
Definition array_or_empty (v : JValue) : list JValue :=
  match v with
  | JArray items => items
  | _ => []
  end.

End JS.

(** ** The API client (services/api.ts) *)

Module narrativeAPI.
Import JS.

(** What [await api.get(...)] yields: the response's [data], or the
    rejection. *)
Abbreviation Response := (Completion JsError JValue).

(** [data[0].summary?.substring(0, 50) + '...'], for a truthy [data[0]]:
    only a string has a [substring] method; calling what a number, a
    boolean, an array or an object has in its place throws. *)
Definition summary_preview (first : JValue) : Completion JsError string :=
  match get_prop first "summary" with
  | JUndefined | JNull => mret "undefined..."%string
  | JString s => mret (String.substring 0 50 s ++ "...")%string
  | _ => Throws (TypeError "data[0].summary?.substring is not a function")
  end.

(** The argument of the [console.log] call of [searchStories]: evaluating
    [firstStory] is the only part that can throw. *)
Definition log_stories_response (data : JValue) : Completion JsError unit :=
  let first := opt_first data in
  if truthy first then _ ← summary_preview first; mret tt
  else mret tt.

(** [searchStories] *)
Definition searchStories (response : Response) : Completion JsError (list JValue) :=
  try_catch
    (data ← response;
     _ ← log_stories_response data;
     mret (if isArray data then array_or_empty data else []))
    (fun error => mret []).

(** [getStory] *)
Definition getStory (response : Response) : Completion JsError JValue :=
  try_catch
    (data ← response; mret data)
    (fun error => Throws error).

Record GraphData := {
  nodes : list JValue;
  links : list JValue
}.

(** [getGraphData]; its [console.log] arguments only read properties
    through [?.] or off truthy values, which cannot throw. *)
Definition getGraphData (response : Response) : Completion JsError GraphData :=
  try_catch
    (data ← response;
     if negb (truthy data) || negb (typeof_object data)
     then mret {| nodes := []; links := [] |}
     else mret {| nodes := if isArray (get_prop data "nodes")
                           then array_or_empty (get_prop data "nodes") else [];
                  links := if isArray (get_prop data "links")
                           then array_or_empty (get_prop data "links") else [] |})
    (fun error => mret {| nodes := []; links := [] |}).

(** The argument of the [console.log] call of [getNarrativeIndex]:
    [data?.slice(0, 3) || []] calls [slice], which arrays and strings
    have; on a number, a boolean or an object the call throws. *)
Definition log_index_response (data : JValue) : Completion JsError unit :=
  match data with
  | JUndefined | JNull | JArray _ | JString _ => mret tt
  | _ => Throws (TypeError "data?.slice is not a function")
  end.

(** [getNarrativeIndex] *)
Definition getNarrativeIndex (response : Response) : Completion JsError (list JValue) :=
  try_catch
    (data ← response;
     _ ← log_index_response data;
     mret (if isArray data then array_or_empty data else []))
    (fun error => mret []).

End narrativeAPI.

(** ** The chat client (services/api.ts) *)

Module chatAPI.
Import JS.

(** The argument of the second [console.log] call of [sendMessage]:
    [data.response] is read without [?.], which throws on [null] and
    [undefined]; the other properties are read off a value that passed
    that test. *)
Definition log_chat_response (data : JValue) : Completion JsError unit :=
  match data with
  | JUndefined | JNull =>
      Throws (TypeError "Cannot read properties of null (reading 'response')")
  | _ => mret tt
  end.

(** [sendMessage], from what [await api.post('/ai/chat', request)]
    yields. *)
Definition sendMessage (response : Completion JsError JValue)
    : Completion JsError JValue :=
  try_catch
    (data ← response;
     _ ← log_chat_response data;
     mret data)
    (fun error => Throws error).

End chatAPI.

(** ** The declared types (types/index.ts) *)

Module Types.

Inductive StoryType :=
| success | failure | conflict | decision | learning | crisis | innovation.

Definition StoryType_string (t : StoryType) : string :=
  match t with
  | success => "success"
  | failure => "failure"
  | conflict => "conflict"
  | decision => "decision"
  | learning => "learning"
  | crisis => "crisis"
  | innovation => "innovation"
  end.

(** [interface Story]: every field of the declaration, optional ones as
    options. There is a [group] and no [groups]. *)
Record Story := {
  id : string;
  summary : string;
  full_text : option string;
  type : StoryType;
  timestamp : string;
  primary_themes : list string;
  secondary_themes : option (list string);
  lessons : list string;
  outcome : string;
  department : option string;
  group : option string;
  protagonists : option (list string);
  stakeholders : option (list string);
  values_represented : option (list string);
  key_quotes : option (list string);
  source : option string
}.

End Types.

(** ** The stories pages *)

Module StoriesListPage.

(** A story object as the pages read it at run time: the properties they
    access, each possibly absent ([undefined]). *)
Record StoryObject := {
  summary : option string;
  outcome : option string;
  full_text : option string;
  type : string;
  primary_themes : option (list string);
  groups : option (list string)
}.

(** The object a value of the declared [Story] type is at run time: reading
    [groups] off it yields [undefined], the interface declares no such
    property. *)
Definition of_declared (s : Types.Story) : StoryObject :=
  {| summary := Some (Types.summary s);
     outcome := Some (Types.outcome s);
     full_text := Types.full_text s;
     type := Types.StoryType_string (Types.type s);
     primary_themes := Some (Types.primary_themes s);
     groups := None |}.

(** The [filters] state; its [groups] is [filter_groups] here, [groups]
    being the story's property. *)
Record Filters := {
  search : string;
  themes : list string;
  filter_groups : list string;
  types : list string
}.

(** [field?.toLowerCase().includes(searchLower)], [undefined] read as
    false. *)
Definition field_matches (field : option string) (searchLower : string) : bool :=
  match field with
  | Some text => str_includes (lower text) searchLower
  | None => false
  end.

(** [list?.some(x => selected.includes(x))], [undefined] read as false. *)
Definition some_selected (l : option (list string)) (selected : list string) : bool :=
  match l with
  | Some xs => existsb (fun x => arr_includes selected x) xs
  | None => false
  end.

(** The callback of [stories.filter]: each guard returns false early. *)
Definition keeps (filters : Filters) (story : StoryObject) : bool :=
  let search_rejects :=
    if negb (String.eqb (search filters) "") then
      let searchLower := lower (search filters) in
      let matchesSearch :=
        field_matches (summary story) searchLower
        || field_matches (outcome story) searchLower
        || field_matches (full_text story) searchLower in
      negb matchesSearch
    else false in
  if search_rejects then false
  else if (0 <? length (types filters))%nat
          && negb (arr_includes (types filters) (type story)) then false
  else if (0 <? length (themes filters))%nat
          && negb (some_selected (primary_themes story) (themes filters)) then false
  else if (0 <? length (filter_groups filters))%nat
          && negb (some_selected (groups story) (filter_groups filters)) then false
  else true.

(** [filteredStories]; [stories] is [undefined] while the query loads. *)
Definition filteredStories (stories : option (list StoryObject)) (filters : Filters)
    : list StoryObject :=
  match stories with
  | None => []
  | Some l => List.filter (keeps filters) l
  end.

(** [set.add(x)] on a [Set] kept in insertion order. *)
Definition set_add (set : list string) (x : string) : list string :=
  if arr_includes set x then set else set ++ [x].

(** [Array.prototype.sort()] on strings: ascending code unit order. *)
Fixpoint sort_insert (x : string) (l : list string) : list string :=
  match l with
  | [] => [x]
  | y :: l' => if String.leb x y then x :: l else y :: sort_insert x l'
  end.

Definition sort (l : list string) : list string := foldr sort_insert [] l.

(** [story.field?.forEach(x => set.add(x))] over all stories. *)
Definition collect (field : StoryObject -> option (list string))
    (stories : list StoryObject) : list string :=
  fold_left (fun set story => fold_left set_add (default [] (field story)) set)
            stories [].

Definition availableThemes (stories : option (list StoryObject)) : list string :=
  match stories with
  | None => []
  | Some l => sort (collect primary_themes l)
  end.

Definition availableGroups (stories : option (list StoryObject)) : list string :=
  match stories with
  | None => []
  | Some l => sort (collect groups l)
  end.

(** [story.groups && story.groups.length > 0]: the condition under which
    [StoryCard] and [StoryDetailPage] render the groups badges. *)
Definition groups_badges_rendered (story : StoryObject) : bool :=
  match groups story with
  | Some (_ :: _) => true
  | _ => false
  end.

(** The filters as the specification words them. *)
Definition satisfies (filters : Filters) (story : StoryObject) : Prop :=
  (search filters <> ""%string ->
     exists text, (summary story = Some text \/ outcome story = Some text
                   \/ full_text story = Some text)
                  /\ occurs_in (lower (search filters)) (lower text))
  /\ (types filters <> [] -> type story ∈ types filters)
  /\ (themes filters <> [] ->
        exists theme ts, primary_themes story = Some ts
                         /\ theme ∈ ts /\ theme ∈ themes filters)
  /\ (filter_groups filters <> [] ->
        exists g gs, groups story = Some gs /\ g ∈ gs /\ g ∈ filter_groups filters).

Definition no_filters : Filters :=
  {| search := ""; themes := []; filter_groups := []; types := [] |}.

(** Three stories as the API might deliver them; the third has
    [groups]. *)
Definition example_story_1 : StoryObject :=
  {| summary := Some "We tried the Copilot pilot"; outcome := Some "Adopted";
     full_text := None; type := "success";
     primary_themes := Some ["tooling"; "trust"]; groups := None |}.

Definition example_story_2 : StoryObject :=
  {| summary := Some "The rollout stalled"; outcome := None;
     full_text := Some "Nobody asked the team first"; type := "failure";
     primary_themes := Some ["trust"]; groups := Some [] |}.

Definition example_story_3 : StoryObject :=
  {| summary := None; outcome := Some "Mixed";
     full_text := Some "Sales fears the copilot"; type := "conflict";
     primary_themes := Some ["fear"]; groups := Some ["sales"; "engineering"] |}.

Definition example_stories : list StoryObject :=
  [example_story_1; example_story_2; example_story_3].

(** A value of the declared [Story] type, with its singular [group]. *)
Definition declared_example : Types.Story :=
  {| Types.id := "s1"; Types.summary := "The pilot delivered";
     Types.full_text := None; Types.type := Types.success;
     Types.timestamp := "2024-05-01"; Types.primary_themes := ["trust"];
     Types.secondary_themes := None; Types.lessons := [];
     Types.outcome := "Adopted"; Types.department := None;
     Types.group := Some "engineering"; Types.protagonists := None;
     Types.stakeholders := None; Types.values_represented := None;
     Types.key_quotes := None; Types.source := None |}.

(** The text of the empty state, rendered when
    [!isLoading && filteredStories.length === 0]. *)
Definition empty_state_message (isLoading : bool)
    (stories : option (list StoryObject)) (filters : Filters) : option string :=
  if negb isLoading && (length (filteredStories stories filters) =? 0)%nat then
    Some (if negb (String.eqb (search filters) "")
             || (0 <? length (themes filters))%nat
             || (0 <? length (filter_groups filters))%nat
             || (0 <? length (types filters))%nat
          then "Try adjusting your filters to see more results"
          else "No stories available in the database")%string
  else None.

End StoriesListPage.

(** ** The filter panel (features/stories/StoryFilters) *)

Module StoryFilters.
Import StoriesListPage.

(** [prev.includes(x) ? prev.filter(t => t !== x) : [...prev, x]], the
    update of [toggleTheme], [toggleGroup] and [toggleType]. *)
Definition toggle (prev : list string) (x : string) : list string :=
  if arr_includes prev x
  then List.filter (fun t => negb (String.eqb t x)) prev
  else prev ++ [x].

(** The panel's four pieces of state are the fields of the object its
    effect passes to [onFilterChange]. *)
Definition toggleTheme (state : Filters) (theme : string) : Filters :=
  {| search := search state; themes := toggle (themes state) theme;
     filter_groups := filter_groups state; types := types state |}.

Definition toggleGroup (state : Filters) (group : string) : Filters :=
  {| search := search state; themes := themes state;
     filter_groups := toggle (filter_groups state) group; types := types state |}.

Definition toggleType (state : Filters) (type : string) : Filters :=
  {| search := search state; themes := themes state;
     filter_groups := filter_groups state; types := toggle (types state) type |}.

Definition setSearch (state : Filters) (value : string) : Filters :=
  {| search := value; themes := themes state;
     filter_groups := filter_groups state; types := types state |}.

Definition clearAll (state : Filters) : Filters :=
  {| search := ""; themes := []; filter_groups := []; types := [] |}.

(** [search || selectedThemes.length > 0 || selectedGroups.length > 0 ||
    selectedTypes.length > 0], read as a condition. *)
Definition hasActiveFilters (state : Filters) : bool :=
  negb (String.eqb (search state) "")
  || (0 <? length (themes state))%nat
  || (0 <? length (filter_groups state))%nat
  || (0 <? length (types state))%nat.

(** What a click on a badge or a key stroke in the search box does. *)
Inductive Action :=
| ClickTheme (theme : string)
| ClickGroup (group : string)
| ClickType (type : string)
| TypeSearch (value : string)
| ClickClear.

Definition act (state : Filters) (a : Action) : Filters :=
  match a with
  | ClickTheme theme => toggleTheme state theme
  | ClickGroup group => toggleGroup state group
  | ClickType type => toggleType state type
  | TypeSearch value => setSearch state value
  | ClickClear => clearAll state
  end.

End StoryFilters.

(** ** The story card (features/stories/StoryCard) *)

Module StoryCard.
Import StoriesListPage.

(** [story.primary_themes.slice(0, 3)], under the guard
    [story.primary_themes && story.primary_themes.length > 0]. *)
Definition theme_badges (story : StoryObject) : list string :=
  match primary_themes story with
  | Some (t :: ts) => take 3 (t :: ts)
  | _ => []
  end.

(** The number on the [+N] badge, rendered when
    [story.primary_themes.length > 3]. *)
Definition theme_overflow (story : StoryObject) : option nat :=
  match primary_themes story with
  | Some (t :: ts) =>
      if (3 <? length (t :: ts))%nat then Some (length (t :: ts) - 3)%nat else None
  | _ => None
  end.

(** [story.groups.slice(0, 2)] and its [+N] badge. *)
Definition group_badges (story : StoryObject) : list string :=
  match groups story with
  | Some (g :: gs) => take 2 (g :: gs)
  | _ => []
  end.

Definition group_overflow (story : StoryObject) : option nat :=
  match groups story with
  | Some (g :: gs) =>
      if (2 <? length (g :: gs))%nat then Some (length (g :: gs) - 2)%nat else None
  | _ => None
  end.

End StoryCard.

(** ** The home page (pages/home/HomePage) *)

Module HomePage.
Import StoriesListPage.

(** [new Set(stories.flatMap(s => s.groups || []))], in insertion
    order; the empty set while [stories] is [undefined]. *)
Definition uniqueGroups (stories : option (list StoryObject)) : list string :=
  match stories with
  | Some l => fold_left set_add (flat_map (fun s => default [] (groups s)) l) []
  | None => []
  end.

(** [uniqueGroups.size], the value of the Active Groups card. *)
Definition activeGroupsCount (stories : option (list StoryObject)) : nat :=
  length (uniqueGroups stories).

End HomePage.

(** ** The old dashboard: story distribution *)

Module Dashboard.
Import StoriesListPage.

(** The types the distribution lists. *)
Definition distribution_types : list string :=
  ["success"; "failure"; "learning"; "decision"; "crisis"]%string.

(** [stories?.filter((s: Story) => s.type === type).length || 0] *)
Definition type_count (stories : option (list StoryObject)) (ty : string) : nat :=
  match stories with
  | Some l => length (List.filter (fun s => String.eqb (type s) ty) l)
  | None => 0
  end.

(** [stories?.length || 1] *)
Definition denominator (stories : option (list StoryObject)) : nat :=
  match stories with
  | Some (s :: l) => length (s :: l)
  | _ => 1
  end.

(** The bar's width in percent: [(count / (stories?.length || 1)) * 100]. *)
Definition bar_width (stories : option (list StoryObject)) (ty : string) : Q :=
  (inject_Z (Z.of_nat (type_count stories ty))
   / inject_Z (Z.of_nat (denominator stories)) * 100)%Q.

End Dashboard.

(** ** The sidebar (layouts/AppLayout) *)

Module AppLayout.

(** The [href]s of [navigation]. *)
Definition navigation : list string :=
  ["/"; "/stories"; "/initiatives"; "/questions"; "/analytics"; "/graph";
   "/chat"]%string.

(** [isActive], with [location.pathname] as argument;
    [pathname.startsWith(href)] is [String.prefix href pathname]. *)
Definition isActive (pathname href : string) : bool :=
  if String.eqb href "/" then String.eqb pathname "/"
  else String.prefix href pathname.

End AppLayout.

(** ** ResistanceMapper (Python) *)

Module ResistanceMapper.
Import AdoptionReadinessScorer.

Record PatternDef := {
  markers : list string;
  severity : string
}.

(** [RESISTANCE_PATTERNS], in the order of the dict literal. *)
Definition RESISTANCE_PATTERNS : list (string * PatternDef) :=
  [ ("passive",
     {| markers := ["waiting to see"; "not prioritized"; "when we have time"];
        severity := "low" |});
    ("skeptical",
     {| markers := ["not convinced"; "needs proof"; "where's the evidence"];
        severity := "medium" |});
    ("active",
     {| markers := ["won't work here"; "tried before"; "fundamentally flawed"];
        severity := "high" |});
    ("fearful",
     {| markers := ["worried about"; "concerned that"; "might lose"];
        severity := "high" |}) ]%string.

(** An entry of [detected_patterns]; [pattern_severity] is its
    ['severity']. *)
Record DetectedPattern := {
  pattern : string;
  pattern_severity : string;
  frequency : nat;
  examples : list story
}.

(** The body of the loop over [RESISTANCE_PATTERNS.items()]: the entry
    appended for one pattern, if any. *)
Definition detect (group_stories : list story) (entry : string * PatternDef)
    : option DetectedPattern :=
  let matches := List.filter (mentions (markers (snd entry))) group_stories in
  match matches with
  | [] => None
  | _ => Some {| pattern := fst entry;
                 pattern_severity := severity (snd entry);
                 frequency := length matches;
                 examples := take 3 matches |}
  end.

(** [identify_resistance_patterns], from the result of
    [_get_group_ai_stories]. *)
Definition identify_resistance_patterns (group_stories : list story)
    : list DetectedPattern :=
  omap (detect group_stories) RESISTANCE_PATTERNS.

End ResistanceMapper.

(** ** The guide's common utilities (Python) *)

Module GuideUtilities.

Inductive PyError :=
| ZeroDivisionError.

(** [a / b] on integers: true division, which raises on a zero divisor. *)
Definition truediv (a b : Z) : Completion PyError Q :=
  if (b =? 0)%Z then Throws ZeroDivisionError
  else mret (inject_Z a / inject_Z b)%Q.

(** [counts[item] += 1] on a [Counter], a dict in insertion order. *)
Fixpoint counter_add (counts : list (string * nat)) (item : string)
    : list (string * nat) :=
  match counts with
  | [] => [(item, 1%nat)]
  | (key, count) :: rest =>
      if String.eqb key item then (key, S count) :: rest
      else (key, count) :: counter_add rest item
  end.

(** [Counter(items)] *)
Definition Counter (items : list string) : list (string * nat) :=
  fold_left counter_add items [].

(** [[item for item, count in counts.items() if count / total >= threshold]] *)
Fixpoint select_common (counts : list (string * nat)) (total : Z) (threshold : Q)
    : Completion PyError (list string) :=
  match counts with
  | [] => mret []
  | (item, count) :: rest =>
      ratio ← truediv (Z.of_nat count) total;
      selected ← select_common rest total threshold;
      mret (if Qle_bool threshold ratio then item :: selected else selected)
  end.

(** [most_common_with_threshold] *)
Definition most_common_with_threshold (items : list string) (threshold : Q)
    : Completion PyError (list string) :=
  let counts := Counter items in
  let total := Z.of_nat (length items) in
  select_common counts total threshold.

(** [contains_keywords] *)
Definition contains_keywords (text : string) (keywords : list string) : bool :=
  let text_lower := lower text in
  existsb (fun keyword => str_includes text_lower keyword) keywords.

(** [extract_keywords] *)
Definition extract_keywords (text : string) (keyword_list : list string) : gset string :=
  let text_lower := lower text in
  list_to_set (List.filter (fun kw => str_includes text_lower kw) keyword_list).

(** The string holds an upper-case ASCII letter. *)
Fixpoint has_upper (s : string) : bool :=
  match s with
  | EmptyString => false
  | String c s' =>
      let n := nat_of_ascii c in
      ((65 <=? n)%nat && (n <=? 90)%nat) || has_upper s'
  end.

(** [categorize_sentiment] *)
Definition categorize_sentiment (sentiment : Q) : string :=
  if Qgtb sentiment 0.5 then "very positive"
  else if Qgtb sentiment 0.2 then "positive"
  else if Qgtb sentiment (-0.2) then "neutral"
  else if Qgtb sentiment (-0.5) then "negative"
  else "very negative".

(** The categories from the most negative to the most positive. *)
Definition sentiment_rank (category : string) : nat :=
  if String.eqb category "very negative" then 0
  else if String.eqb category "negative" then 1
  else if String.eqb category "neutral" then 2
  else if String.eqb category "positive" then 3
  else 4.

End GuideUtilities.

(** ** The chat hook (hooks/useChat.ts) and the chat page *)

Module useChat.
Import JS.

(** White space of [String.prototype.trim], among the code units below
    256: TAB, LF, VT, FF, CR, SP and NBSP. *)
Definition is_whitespace (c : ascii) : bool :=
  let n := nat_of_ascii c in
  ((9 <=? n)%nat && (n <=? 13)%nat) || (n =? 32)%nat || (n =? 160)%nat.

Fixpoint trim_start (s : string) : string :=
  match s with
  | EmptyString => EmptyString
  | String c s' => if is_whitespace c then trim_start s' else s
  end.

Fixpoint trim_end (s : string) : string :=
  match s with
  | EmptyString => EmptyString
  | String c s' =>
      match trim_end s' with
      | EmptyString => if is_whitespace c then EmptyString else String c EmptyString
      | rest => String c rest
      end
  end.

(** [s.trim()] *)
Definition trim (s : string) : string := trim_end (trim_start s).

Inductive MessageRole := user | assistant | system.

(** [ChatMessage]: [id] is the number whose decimal string the message
    carries, [timestamp] the clock reading of [new Date()], [metadata] the
    pair of [intent] and [dataSummary] when the property is set. *)
Record ChatMessage := {
  id : Z;
  role : MessageRole;
  content : JValue;
  timestamp : Z;
  metadata : option (JValue * JValue)
}.

(** The state of the hook, one field for each [useState]. *)
Record State := {
  messages : list ChatMessage;
  isLoading : bool;
  error : option string;
  conversationId : JValue;
  sources : JValue;
  suggestedFollowups : JValue
}.

Definition initial : State :=
  {| messages := []; isLoading := false; error := None;
     conversationId := JNull; sources := JArray [];
     suggestedFollowups := JArray [] |}.

(** [ChatRequest] as [sendMessage] fills it. *)
Record ChatRequest := {
  message : string;
  conversation_id : JValue;
  conversation_history : list (MessageRole * JValue)
}.

(** The four clock readings of one call: [Date.now()] and [new Date()] for
    the user message, and again for the reply. *)
Record Clock := {
  sent_id : Z;
  sent_at : Z;
  answered_id : Z;
  answered_at : Z
}.

(** [a || b] *)
Definition js_or (a b : JValue) : JValue := if truthy a then a else b.

(** [l.slice(-n)] *)
Definition slice_last {A} (n : nat) (l : list A) : list A :=
  drop (length l - n) l.

(** [msg => ({ role: msg.role, content: msg.content })] *)
Definition history_entry (msg : ChatMessage) : MessageRole * JValue :=
  (role msg, content msg).

(** The argument of [chatAPI.sendMessage]: the text as typed, the
    conversation id of the render, the last 10 of its messages. *)
Definition build_request (state : State) (content : string) : ChatRequest :=
  let history := map history_entry (slice_last 10 (messages state)) in
  {| message := content;
     conversation_id := js_or (conversationId state) JUndefined;
     conversation_history := history |}.

(** [err instanceof Error ? err.message : 'Failed to send message']: what
    the request and the property reads can throw are [Error] objects. *)
Definition error_message (err : JsError) : string :=
  match err with
  | AxiosError message => message
  | TypeError message => message
  end.

(** [sendMessage], one call run to completion from the render [state] in
    which it was created, no other update coming in between: [server] is
    what [api.post('/ai/chat', request)] yields, [clock] what the clock
    reads. The state updates of the call are applied in the order the code
    queues them. *)
Definition sendMessage
    (server : ChatRequest -> Completion JsError JValue) (clock : Clock)
    (state : State) (content : string) : State :=
  if negb (truthy (JString (trim content))) then state
  else
    let userMessage :=
      {| id := sent_id clock; role := user; content := JString (trim content);
         timestamp := sent_at clock; metadata := None |} in
    let outcome :=
      response ← chatAPI.sendMessage (server (build_request state content));
      match response with
      | JUndefined | JNull =>
          Throws (TypeError
            "Cannot read properties of null (reading 'conversation_id')")
      | _ => mret response
      end in
    match outcome with
    | Returns response =>
        let assistantMessage :=
          {| id := answered_id clock + 1; role := assistant;
             content := get_prop response "response";
             timestamp := answered_at clock;
             metadata := Some (get_prop response "intent",
                               get_prop response "data_summary") |} in
        {| messages := (messages state ++ [userMessage]) ++ [assistantMessage];
           isLoading := false;
           error := None;
           conversationId :=
             if truthy (get_prop response "conversation_id")
                && negb (truthy (conversationId state))
             then get_prop response "conversation_id"
             else conversationId state;
           sources := js_or (get_prop response "sources") (JArray []);
           suggestedFollowups :=
             js_or (get_prop response "suggested_followups") (JArray []) |}
    | Throws err =>
        let errorMessage := error_message err in
        let errorMsg :=
          {| id := answered_id clock + 1; role := assistant;
             content :=
               JString ("Sorry, I encountered an error: " ++ errorMessage
                        ++ ". Please try again.");
             timestamp := answered_at clock; metadata := None |} in
        {| messages := (messages state ++ [userMessage]) ++ [errorMsg];
           isLoading := false;
           error := Some errorMessage;
           conversationId := conversationId state;
           sources := sources state;
           suggestedFollowups := suggestedFollowups state |}
    end.

(** [clearMessages] *)
Definition clearMessages (state : State) : State :=
  {| messages := []; isLoading := isLoading state; error := None;
     conversationId := JNull; sources := JArray [];
     suggestedFollowups := JArray [] |}.

End useChat.

Module ChatPage.
Import JS useChat.

(** [handleSend]: the input box and the hook's state after the call. *)
Definition handleSend
    (server : ChatRequest -> Completion JsError JValue) (clock : Clock)
    (input : string) (state : State) : string * State :=
  if negb (truthy (JString (trim input))) || isLoading state then (input, state)
  else (""%string, sendMessage server clock state input).

(** What a user of the page can do between two renders. *)
Inductive Action :=
| Send (server : ChatRequest -> Completion JsError JValue) (clock : Clock)
       (input : string)
| Clear.

Definition act (state : State) (a : Action) : State :=
  match a with
  | Send server clock input => (handleSend server clock input state).2
  | Clear => clearMessages state
  end.

(** The state after a session that starts with the page. *)
Definition session (actions : list Action) : State :=
  fold_left act actions initial.

End ChatPage.

(** * Theorems *)

(** ** Comparisons and sums over [Q] *)

Lemma Qgtb_lt x y : Qgtb x y = true <-> (y < x)%Q.
Proof.
  unfold Qgtb. rewrite negb_true_iff. split.
  - intros H. apply Qnot_le_lt. intros Hle.
    apply Qle_bool_iff in Hle. congruence.
  - intros H. destruct (Qle_bool x y) eqn:E; [|done].
    apply Qle_bool_iff in E. lra.
Qed.

Lemma Qltb_lt x y : Qltb x y = true <-> (x < y)%Q.
Proof. unfold Qltb. apply (Qgtb_lt y x). Qed.

Lemma Qgtb_proper x x' y : (x == x')%Q -> Qgtb x y = Qgtb x' y.
Proof.
  intros E. destruct (Qgtb x y) eqn:H1, (Qgtb x' y) eqn:H2; try done.
  - apply Qgtb_lt in H1. rewrite E in H1. apply Qgtb_lt in H1. congruence.
  - apply Qgtb_lt in H2. rewrite <- E in H2. apply Qgtb_lt in H2. congruence.
Qed.

Lemma Qltb_proper x x' y : (x == x')%Q -> Qltb x y = Qltb x' y.
Proof.
  intros E. destruct (Qltb x y) eqn:H1, (Qltb x' y) eqn:H2; try done.
  - apply Qltb_lt in H1. rewrite E in H1. apply Qltb_lt in H1. congruence.
  - apply Qltb_lt in H2. rewrite <- E in H2. apply Qltb_lt in H2. congruence.
Qed.

Lemma fold_Qplus_acc (l : list Q) (acc : Q) :
  (fold_left Qplus l acc == acc + Qsum l)%Q.
Proof.
  unfold Qsum. revert acc. induction l as [|x l IH]; intros acc; simpl.
  - ring.
  - rewrite IH, (IH (0 + x)%Q). ring.
Qed.

Lemma Qsum_cons (x : Q) (l : list Q) : (Qsum (x :: l) == x + Qsum l)%Q.
Proof. unfold Qsum at 1. simpl. rewrite fold_Qplus_acc. ring. Qed.

Lemma Qsum_bounds (l : list Q) :
  (forall x, x ∈ l -> (0 <= x <= 1)%Q) ->
  (0 <= Qsum l <= inject_Z (Z.of_nat (length l)))%Q.
Proof.
  induction l as [|x l IH]; intros Hl.
  - unfold Qsum. simpl. split; apply Qle_refl.
  - rewrite Qsum_cons. cbn [length]. rewrite Nat2Z.inj_succ, <- Z.add_1_r, inject_Z_plus.
    destruct IH as [IH1 IH2]; [intros y Hy; apply Hl; by right|].
    destruct (Hl x) as [Hx1 Hx2]; [by left|].
    change (inject_Z 1) with 1%Q. split; lra.
Qed.

(** ** AdoptionReadinessScorer *)

Section ReadinessTheorems.
Import AdoptionReadinessScorer.

Lemma overall_score_expand (d : Dimensions) :
  (overall_score d ==
     d narrative_alignment * 0.20 + d cultural_receptivity * 0.20
     + d trust_foundation * 0.15 + d learning_orientation * 0.15
     + d leadership_coherence * 0.15 + d coordination * 0.15)%Q.
Proof. unfold overall_score, weighted_sum. simpl. ring. Qed.

(** C1, the claim as stated fails: with the weights of the code the
    scenario's weighted sum is not 0.585, neither over the rationals nor in
    binary64. *)
Lemma overall_readiness_scenario_not_0585 :
  ~ (overall_score scenario_scores == 0.585)%Q
  /\ PrimFloat.eqb (overall_score_f64 scenario_scores_f64) 0.585 = false.
Proof.
  split.
  - rewrite overall_score_expand. unfold scenario_scores, scores.
    intros H. vm_compute in H. discriminate H.
  - vm_compute. reflexivity.
Qed.

(** C1, amended: [overall_readiness] is the weighted sum of the six
    dimension scores with weights 0.20, 0.20, 0.15, 0.15, 0.15, 0.15; for
    the scores 0.8, 0.7, 0.6, 0.5, 0.4, 0.3 it is 0.57 over the rationals
    and 0.5700000000000001 in binary64. *)
Theorem overall_readiness_weighted_sum :
  (forall na cr tf lo lc co : Q,
     overall_score (scores na cr tf lo lc co) ==
       na * 0.20 + cr * 0.20 + tf * 0.15 + lo * 0.15 + lc * 0.15 + co * 0.15)%Q
  /\ (overall_score scenario_scores == 0.57)%Q
  /\ overall_score_f64 scenario_scores_f64 = 0.5700000000000001%float.
Proof.
  split; [|split].
  - intros. rewrite overall_score_expand. unfold scores. reflexivity.
  - rewrite overall_score_expand. unfold scenario_scores, scores. reflexivity.
  - vm_compute. reflexivity.
Qed.

(** Where 0.585 comes from: the weights listed in the implementation status
    document, 0.20, 0.20, 0.20, 0.15, 0.15, 0.10. *)
Lemma documented_weights_scenario :
  (weighted_sum 0 Qplus Qmult documented_weights scenario_scores == 0.585)%Q.
Proof. unfold weighted_sum. simpl. reflexivity. Qed.

(** C3: the weights of [assess_readiness] sum to exactly 1, over the
    rationals; each is positive, and the binary64 sum is 1.0 as well. *)
Theorem weights_sum_to_one :
  (Qsum (map weights dimension_keys) == 1)%Q
  /\ (forall dim, 0 < weights dim)%Q
  /\ fold_left PrimFloat.add (map weights_f64 dimension_keys) 0%float = 1%float.
Proof.
  split; [|split].
  - unfold Qsum. simpl. reflexivity.
  - intros []; reflexivity.
  - vm_compute. reflexivity.
Qed.

Lemma forecast_accelerating trend (d : Dimensions) :
  forecast_adoption_trajectory trend d = accelerating <->
  trend = "positive"%string /\ (0.6 < d cultural_receptivity)%Q.
Proof.
  unfold forecast_adoption_trajectory.
  rewrite <- Qgtb_lt, <- String.eqb_eq, <- andb_true_iff.
  destruct (String.eqb trend "positive" && _); [done|].
  destruct (String.eqb trend "negative" || _); split; intros H; discriminate H.
Qed.

Lemma forecast_stalling trend (d : Dimensions) :
  forecast_adoption_trajectory trend d = stalling <->
  ~ (trend = "positive"%string /\ (0.6 < d cultural_receptivity)%Q)
  /\ (trend = "negative"%string \/ (d trust_foundation < 0.4)%Q).
Proof.
  unfold forecast_adoption_trajectory.
  rewrite <- Qgtb_lt, <- Qltb_lt, <- !String.eqb_eq, <- andb_true_iff, <- orb_true_iff.
  destruct (String.eqb trend "positive" && _);
    [|destruct (String.eqb trend "negative" || _)];
    intuition congruence.
Qed.

(** C2, the claim as stated fails: its second rule, negative trend or
    trust below 0.4 gives stalling, does not hold of the code where the
    first rule applies as well. With a positive trend, receptivity 0.8 and
    trust 0.3 the trust is below 0.4 and the forecast is accelerating:
    [forecast_adoption_trajectory] tests the rules in the order written,
    [if] then [elif], and the first one that applies decides. *)
Lemma forecast_stalling_rule_not_unconditional :
  (scores 0.5 0.8 0.3 0.5 0.5 0.5 trust_foundation < 0.4)%Q
  /\ forecast_adoption_trajectory "positive" (scores 0.5 0.8 0.3 0.5 0.5 0.5)
     = accelerating
  /\ forecast_adoption_trajectory_f64 "positive" 0.8 0.3 = accelerating
  /\ ~ (forall (trend : string) (d : Dimensions),
          trend = "negative"%string \/ (d trust_foundation < 0.4)%Q ->
          forecast_adoption_trajectory trend d = stalling).
Proof.
  split; [reflexivity|]. split; [reflexivity|]. split; [reflexivity|].
  intros H.
  specialize (H "positive"%string (scores 0.5 0.8 0.3 0.5 0.5 0.5)).
  assert (forecast_adoption_trajectory "positive" (scores 0.5 0.8 0.3 0.5 0.5 0.5)
          = stalling) as E by (apply H; right; reflexivity).
  discriminate E.
Qed.

(** C2, amended: the forecast is a total function of the trend and the two
    scores, its rules applied in order: positive trend with receptivity
    above 0.6 gives accelerating; otherwise negative trend or trust below
    0.4 gives stalling; every other input gives uncertain; the other four
    dimensions do not matter; the scenario (negative, trust 0.3,
    receptivity 0.8) gives stalling. *)
Theorem forecast_adoption_trajectory_rules (trend : string) (d : Dimensions) :
  let cr := d cultural_receptivity in
  let tf := d trust_foundation in
  let accelerates := trend = "positive"%string /\ (0.6 < cr)%Q in
  let stalls := trend = "negative"%string \/ (tf < 0.4)%Q in
  (accelerates -> forecast_adoption_trajectory trend d = accelerating)
  /\ (~ accelerates -> stalls -> forecast_adoption_trajectory trend d = stalling)
  /\ (~ accelerates -> ~ stalls -> forecast_adoption_trajectory trend d = uncertain)
  /\ (forall d' : Dimensions,
        (d' cultural_receptivity == cr)%Q -> (d' trust_foundation == tf)%Q ->
        forecast_adoption_trajectory trend d' = forecast_adoption_trajectory trend d)
  /\ (trend = "negative"%string -> (tf == 0.3)%Q -> (cr == 0.8)%Q ->
        forecast_adoption_trajectory trend d = stalling).
Proof.
  intros cr tf accelerates stalls. repeat split.
  - intros H. by apply forecast_accelerating.
  - intros H1 H2. by apply forecast_stalling.
  - intros H1 H2.
    destruct (forecast_adoption_trajectory trend d) eqn:E; [| |done].
    + apply forecast_accelerating in E. contradiction.
    + apply forecast_stalling in E. destruct E. contradiction.
  - intros d' Hcr Htf. unfold forecast_adoption_trajectory.
    by rewrite (Qgtb_proper _ _ _ Hcr), (Qltb_proper _ _ _ Htf).
  - intros -> Htf Hcr. apply forecast_stalling. split; [|by left].
    intros [H _]. discriminate H.
Qed.

Lemma forecast_adoption_trajectory_rules_witness :
  forecast_adoption_trajectory "negative" (scores 0.5 0.8 0.3 0.5 0.5 0.5) = stalling.
Proof.
  apply (forecast_adoption_trajectory_rules "negative" (scores 0.5 0.8 0.3 0.5 0.5 0.5));
    reflexivity.
Defined.

(** The scenario in binary64. *)
Example forecast_scenario_f64 :
  forecast_adoption_trajectory_f64 "negative" 0.8 0.3 = stalling.
Proof. reflexivity. Qed.

(** The first rule wins where both apply: a positive trend with high
    receptivity is accelerating even when trust is below 0.4. *)
Lemma forecast_first_rule_wins :
  forecast_adoption_trajectory "positive" (scores 0.5 0.8 0.3 0.5 0.5 0.5) = accelerating.
Proof. reflexivity. Qed.

(** *** Ranges *)

Lemma count_mentions_nonneg indicators all_stories :
  (0 <= count_mentions indicators all_stories)%Z.
Proof. unfold count_mentions. lia. Qed.

Lemma ratio_bounds (p n : Z) :
  (0 <= p)%Z -> (0 <= n)%Z -> (0 < p + n)%Z ->
  (0 <= inject_Z p / inject_Z (p + n) <= 1)%Q.
Proof.
  intros Hp Hn Hpos.
  assert (0 < inject_Z (p + n))%Q as Hq.
  { change 0%Q with (inject_Z 0). by rewrite <- Zlt_Qlt. }
  assert (0 <= inject_Z p)%Q as Hp'.
  { change 0%Q with (inject_Z 0). by rewrite <- Zle_Qle. }
  assert (inject_Z p <= inject_Z (p + n))%Q as Hle.
  { rewrite <- Zle_Qle. lia. }
  split.
  - apply Qle_shift_div_l; [done|]. lra.
  - apply Qle_shift_div_r; [done|]. lra.
Qed.

Lemma trust_score_range (all_stories : list story) :
  (0 <= trust_score (score_trust_levels all_stories) <= 1)%Q.
Proof.
  unfold score_trust_levels. cbn [trust_score].
  destruct (Z.ltb_spec 0 (count_mentions trust_positive all_stories
                          + count_mentions trust_negative all_stories)) as [H|H].
  - apply ratio_bounds; [apply count_mentions_nonneg..|done].
  - split; lra.
Qed.

Lemma overall_score_range (d : Dimensions) :
  (forall dim, (0 <= d dim <= 1)%Q) -> (0 <= overall_score d <= 1)%Q.
Proof.
  intros H. rewrite overall_score_expand.
  pose proof (H narrative_alignment). pose proof (H cultural_receptivity).
  pose proof (H trust_foundation). pose proof (H learning_orientation).
  pose proof (H leadership_coherence). pose proof (H coordination).
  split; lra.
Qed.

Lemma clamp01_range (x : Q) : (0 <= clamp01 x <= 1)%Q.
Proof.
  unfold clamp01. split.
  - apply Q.min_glb; [apply Q.le_max_r|lra].
  - apply Q.le_min_r.
Qed.

Lemma clamp01_id (x : Q) : (0 <= x <= 1)%Q -> (clamp01 x == x)%Q.
Proof.
  intros [H0 H1]. unfold clamp01.
  rewrite (Q.max_l x 0) by done. by rewrite Q.min_l.
Qed.

Lemma score_narrative_alignment_range
    (calc : list story -> list story -> Q) stories_by_group :
  (forall a b, (0 <= calc a b <= 1)%Q) ->
  (0 <= score_narrative_alignment calc stories_by_group <= 1)%Q.
Proof.
  intros Hcalc. unfold score_narrative_alignment.
  assert (forall x, x ∈ alignment_scores calc stories_by_group -> (0 <= x <= 1)%Q) as Hl.
  { intros x Hx. unfold alignment_scores in Hx.
    apply list_elem_of_fmap in Hx as (p & -> & _). apply Hcalc. }
  destruct (alignment_scores calc stories_by_group) as [|x l] eqn:E.
  - split; lra.
  - destruct (Qsum_bounds _ Hl) as [H0 H1].
    assert (0 < inject_Z (Z.of_nat (length (x :: l))))%Q as Hpos.
    { change 0%Q with (inject_Z 0). rewrite <- Zlt_Qlt. cbn [length]. lia. }
    split.
    + apply Qle_shift_div_l; [done|]. lra.
    + apply Qle_shift_div_r; [done|]. lra.
Qed.

(** The weighted sum of [assess_readiness] has no clamping step of its
    own: at dimension scores of 2, which the dimension functions of the
    guide do not produce, the formula gives 2. *)
Lemma overall_readiness_not_clamped :
  (overall_score (constant_scores 2) == 2)%Q
  /\ ~ (0 <= overall_score (constant_scores 2) <= 1)%Q
  /\ ~ (overall_score (constant_scores 2)
        == clamp01 (overall_score (constant_scores 2)))%Q.
Proof.
  assert (overall_score (constant_scores 2) == 2)%Q as E.
  { rewrite overall_score_expand. reflexivity. }
  split; [done|split].
  - rewrite E. intros [_ H]. lra.
  - intros H. pose proof (clamp01_range (overall_score (constant_scores 2))) as [_ H1].
    rewrite <- H, E in H1. lra.
Qed.

(** On the scores the scorer computes itself the missing clamp of
    [assess_readiness] cannot be seen: the trust score lies in [0,1] for
    every list of stories; the narrative alignment whenever the pairwise
    alignments do; and the overall readiness, the weighted sum as
    computed, whenever the six dimension scores do, where clamping would
    change nothing. *)
Theorem readiness_scores_in_range (d : Dimensions) :
  (forall dim, (0 <= d dim <= 1)%Q) ->
  (0 <= overall_score d <= 1)%Q
  /\ (overall_score d == clamp01 (overall_score d))%Q
  /\ (forall all_stories,
        (0 <= trust_score (score_trust_levels all_stories) <= 1)%Q)
  /\ (forall calc stories_by_group,
        (forall a b, (0 <= calc a b <= 1)%Q) ->
        (0 <= score_narrative_alignment calc stories_by_group <= 1)%Q).
Proof.
  intros H. pose proof (overall_score_range d H) as Hr.
  split; [done|split; [|split]].
  - symmetry. by apply clamp01_id.
  - apply trust_score_range.
  - apply score_narrative_alignment_range.
Qed.

Lemma readiness_scores_in_range_witness :
  (0 <= overall_score scenario_scores <= 1)%Q.
Proof.
  apply (readiness_scores_in_range scenario_scores).
  intros []; vm_compute; split; discriminate.
Defined.

(** Rounding at the upper end, in binary64 with every dimension at 1.0: the
    weights of the code add up to exactly 1.0; the weights of the status
    document add up to 1.0000000000000002. *)
Lemma overall_score_f64_all_ones :
  overall_score_f64 (fun _ => 1%float) = 1%float
  /\ weighted_sum 0%float PrimFloat.add PrimFloat.mul documented_weights_f64
       (fun _ => 1%float) = 1.0000000000000002%float.
Proof. split; vm_compute; reflexivity. Qed.

(** The guide's aggregation pattern caps at 1 and has no lower clamp. *)
Lemma aggregate_scores_capped dimension_scores :
  (aggregate_scores dimension_scores <= 1)%Q.
Proof. unfold aggregate_scores. apply Q.le_min_r. Qed.

Lemma aggregate_scores_negative :
  (aggregate_scores (fun _ => (-1)%Q) == -1)%Q.
Proof. reflexivity. Qed.


(** The trust score on concrete stories: two positive signals, one
    negative. *)
Example trust_score_example :
  (trust_score (score_trust_levels
     [ {["summary" := "Leadership DELIVERED the pilot"]};
       {["summary" := "They listened to the team"]};
       {["summary" := "Promised but never shipped"]};
       {["id" := "s4"]} ]) == 2 # 3)%Q.
Proof. vm_compute. reflexivity. Qed.

End ReadinessTheorems.

(** ** NarrativeGapAnalyzer *)

Section VocabularyGapTheorems.
Import NarrativeGapAnalyzer.

Lemma concept_terms_spec (stories : list Story) (term : string) :
  term ∈ concept_terms stories <->
  exists s, s ∈ stories /\ term ∈ concepts_mentioned s.
Proof.
  unfold concept_terms. rewrite elem_of_union_list. split.
  - intros (X & HX & Hterm). apply list_elem_of_fmap in HX as (s & -> & Hs). eauto.
  - intros (s & Hs & Hterm). exists (concepts_mentioned s). split; [|done].
    apply list_elem_of_fmap. eauto.
Qed.

Lemma jaccard_bounds (i u : nat) :
  (i <= u)%nat -> (0 < u)%nat ->
  (0 <= 1 - inject_Z (Z.of_nat i) / inject_Z (Z.of_nat u) <= 1)%Q.
Proof.
  intros Hiu Hu.
  assert (0 < inject_Z (Z.of_nat u))%Q as Hpos.
  { change 0%Q with (inject_Z 0). rewrite <- Zlt_Qlt. lia. }
  assert (0 <= inject_Z (Z.of_nat i))%Q as Hi.
  { change 0%Q with (inject_Z 0). rewrite <- Zle_Qle. lia. }
  assert (inject_Z (Z.of_nat i) <= inject_Z (Z.of_nat u))%Q as Hle.
  { rewrite <- Zle_Qle. lia. }
  assert (0 <= inject_Z (Z.of_nat i) / inject_Z (Z.of_nat u) <= 1)%Q as [H0 H1].
  { split.
    - apply Qle_shift_div_l; [done|]. lra.
    - apply Qle_shift_div_r; [done|]. lra. }
  split; lra.
Qed.

(** C6: the vocabulary gap is 1 - |intersection| / |union| of the two
    concept-term sets, it is 0 when the union is empty, and it lies in
    [0,1]; the function is total, so nothing is raised. *)
Theorem vocabulary_gap_jaccard (official actual : list Story) :
  let o := concept_terms official in
  let a := concept_terms actual in
  (o ∪ a <> ∅ ->
     (vocabulary_gap official actual ==
        1 - inject_Z (Z.of_nat (size (o ∩ a))) / inject_Z (Z.of_nat (size (o ∪ a))))%Q)
  /\ (o ∪ a = ∅ -> vocabulary_gap official actual = 0%Q)
  /\ (0 <= vocabulary_gap official actual <= 1)%Q.
Proof.
  intros o a. unfold vocabulary_gap. fold o a.
  destruct (Nat.eqb_spec (size (o ∪ a)) 0) as [E|E].
  - apply size_empty_iff, leibniz_equiv in E. repeat split; try done; lra.
  - split; [done|split].
    + intros H. rewrite H, size_empty in E. done.
    + apply jaccard_bounds; [|lia].
      apply subseteq_size. transitivity o.
      * apply intersection_subseteq_l.
      * apply union_subseteq_l.
Qed.

Lemma vocabulary_gap_jaccard_witness :
  (vocabulary_gap example_official example_actual == 2 # 3)%Q.
Proof.
  destruct (vocabulary_gap_jaccard example_official example_actual) as [Hgap _].
  assert (concept_terms example_official ∪ concept_terms example_actual <> ∅) as Hne.
  { intros E. apply (f_equal size) in E. vm_compute in E. discriminate E. }
  apply Hgap in Hne. etransitivity; [exact Hne|]. vm_compute. reflexivity.
Defined.

(** The sentiment gap of the specification is a signed difference: it is
    not confined to [0,1]. *)
Example sentiment_gap_negative : (sentiment_gap [1] [-1] == -2)%Q.
Proof. reflexivity. Qed.

(** No stories on either side: nothing to compare, the gap is 0. *)
Example vocabulary_gap_empty : vocabulary_gap [] [] = 0%Q.
Proof. reflexivity. Qed.

End VocabularyGapTheorems.

(** ** AnalysisOrchestrator *)

Section OrchestratorTheorems.
Import AnalysisOrchestrator.

Variable weights : Analyzer -> Q.
Hypothesis weights_positive : forall a, (0 < weights a)%Q.
Hypothesis weights_total : (Qsum (map weights analyzers) == 1)%Q.

#[local] Arguments run_section : simpl never.

Lemma run_section_returns score : run_section (Returns score) = SectionOk score.
Proof. reflexivity. Qed.

Lemma run_section_throws error : run_section (Throws error) = SectionFailed error.
Proof. reflexivity. Qed.

(** C5: when exactly one analyzer fails, the orchestrator still returns a
    report; the failing section is marked failed with the error as note;
    every other section carries its score and its weight divided by the
    sum of the remaining weights, 1 - the failed weight, which is
    positive; the weights in use sum to 1; and the composite score is
    their weighted sum. *)
Theorem one_failure_renormalizes
    (invoke : Analyzer -> Completion string Q) (failing : Analyzer) (error : string) :
  invoke failing = Throws error ->
  (forall a, a <> failing -> exists score, invoke a = Returns score) ->
  exists report,
    run_comprehensive_analysis weights invoke = Returns report
    /\ section report failing = SectionFailed error
    /\ weight_used report failing = 0%Q
    /\ (forall a, a <> failing ->
          exists score, section report a = SectionOk score
                        /\ invoke a = Returns score
                        /\ (weight_used report a == weights a / (1 - weights failing))%Q)
    /\ (0 < 1 - weights failing)%Q
    /\ (Qsum (map (weight_used report) analyzers) == 1)%Q
    /\ (composite_score report ==
          Qsum (map (fun a => weight_used report a * section_score (section report a))
                    analyzers))%Q.
Proof.
  intros Hfail Hothers.
  pose proof (weights_positive NarrativeGap). pose proof (weights_positive FrameCompetition).
  pose proof (weights_positive CulturalSignal). pose proof (weights_positive Resistance).
  pose proof (weights_positive AdoptionReadiness).
  pose proof weights_total as Htotal. unfold Qsum, analyzers in Htotal. simpl in Htotal.
  eexists. split; [reflexivity|]. cbn [section weight_used composite_score].
  unfold renormalize, analyzers, Qsum.
  assert (forall a, a <> failing ->
            exists score, invoke a = Returns score
                          /\ run_section (invoke a) = SectionOk score) as Hok.
  { intros a Ha. destruct (Hothers a Ha) as [score E]. exists score. by rewrite E. }
  destruct failing; simpl; rewrite ?Hfail, ?run_section_throws;
    repeat match goal with
    | |- context [run_section (invoke ?a)] =>
        let s := fresh "score" in let E := fresh "E" in let R := fresh "R" in
        destruct (Hok a ltac:(discriminate)) as (s & E & R); rewrite R
    end;
    clear Hok; simpl;
    (split; [reflexivity|]); (split; [reflexivity|]);
    (split; [|split; [lra|split; [field; lra|reflexivity]]]);
    intros [] Ha; try (by destruct Ha);
    repeat match goal with
    | R : run_section _ = _ |- _ => rewrite !R; clear R
    end;
    eexists; (split; [reflexivity|]); (split; [eassumption|]);
    simpl;
    match goal with
    | |- (_ / ?r == _ / ?r')%Q => setoid_replace r' with r using relation Qeq by lra; reflexivity
    end.
Qed.

End OrchestratorTheorems.

Lemma one_failure_renormalizes_witness :
  exists report,
    AnalysisOrchestrator.run_comprehensive_analysis (fun _ => 0.2%Q)
      (fun a => match a with
                | AnalysisOrchestrator.Resistance => Throws "query failed"%string
                | _ => Returns 0.5%Q
                end) = Returns report
    /\ AnalysisOrchestrator.section report AnalysisOrchestrator.Resistance
       = AnalysisOrchestrator.SectionFailed "query failed"
    /\ (Qsum (map (AnalysisOrchestrator.weight_used report)
                  AnalysisOrchestrator.analyzers) == 1)%Q.
Proof.
  set (invoke := fun a => match a with
                          | AnalysisOrchestrator.Resistance => Throws "query failed"%string
                          | _ => Returns 0.5%Q
                          end).
  assert (forall a : AnalysisOrchestrator.Analyzer, (0 < 0.2)%Q) as Hpos
    by (intros _; reflexivity).
  assert (Qsum (map (fun _ => 0.2%Q) AnalysisOrchestrator.analyzers) == 1)%Q as Htotal
    by reflexivity.
  assert (forall a, a <> AnalysisOrchestrator.Resistance ->
            exists score, invoke a = Returns score) as Hothers.
  { intros [] Ha; try (by destruct Ha); by eexists. }
  destruct (one_failure_renormalizes (fun _ => 0.2%Q) Hpos Htotal invoke
              AnalysisOrchestrator.Resistance "query failed"%string eq_refl Hothers)
    as (report & Hrun & Hsection & _ & _ & _ & Hsum & _).
  exists report. by repeat split.
Defined.

(** ** The API client *)

Section ApiTheorems.
Import JS narrativeAPI.

Lemma searchStories_rejected error : searchStories (Throws error) = Returns [].
Proof. reflexivity. Qed.

Lemma searchStories_total response : exists stories, searchStories response = Returns stories.
Proof.
  destruct response as [data|error]; [|by eexists].
  unfold searchStories. cbn [mbind completion_bind].
  destruct (log_stories_response data); by eexists.
Qed.

Lemma searchStories_not_array data :
  isArray data = false -> searchStories (Returns data) = Returns [].
Proof.
  intros H. unfold searchStories. cbn [mbind completion_bind].
  destruct (log_stories_response data); cbn; by rewrite ?H.
Qed.

Lemma getGraphData_total response :
  exists graph, getGraphData response = Returns graph.
Proof.
  destruct response as [data|error]; [|by eexists].
  unfold getGraphData. cbn [mbind completion_bind].
  destruct (negb (truthy data) || negb (typeof_object data)); by eexists.
Qed.

Lemma getGraphData_not_object data :
  (forall props, data <> JObject props) ->
  getGraphData (Returns data) = Returns {| nodes := []; links := [] |}.
Proof.
  intros H. destruct data as [| |b|x|str|items|props]; try reflexivity.
  - by destruct b.
  - unfold getGraphData. cbn. by destruct (negb _).
  - unfold getGraphData. cbn. by destruct (negb _).
  - by destruct (H props).
Qed.

(** C8: [searchStories] and [getGraphData] never throw; on a rejected
    request and on a response that is not an array (not an object) they
    return [[]] and [{nodes: [], links: []}]; [getGraphData] returns
    arrays in both fields, the response's own where it has them;
    [getStory] rethrows the error it caught, and returns the data
    otherwise. *)
Theorem narrativeAPI_error_handling :
  (forall response, exists stories, searchStories response = Returns stories)
  /\ (forall error, searchStories (Throws error) = Returns [])
  /\ (forall data, isArray data = false -> searchStories (Returns data) = Returns [])
  /\ (forall response, exists ns ls,
        getGraphData response = Returns {| nodes := ns; links := ls |})
  /\ (forall error, getGraphData (Throws error) = Returns {| nodes := []; links := [] |})
  /\ (forall data, (forall props, data <> JObject props) ->
        getGraphData (Returns data) = Returns {| nodes := []; links := [] |})
  /\ (forall props,
        getGraphData (Returns (JObject props)) =
          Returns {| nodes := array_or_empty (get_prop (JObject props) "nodes");
                     links := array_or_empty (get_prop (JObject props) "links") |})
  /\ (forall error, getStory (Throws error) = Throws error)
  /\ (forall data, getStory (Returns data) = Returns data).
Proof.
  repeat split.
  - apply searchStories_total.
  - apply searchStories_not_array.
  - intros response. destruct (getGraphData_total response) as [[ns ls] E]. eauto.
  - apply getGraphData_not_object.
  - intros props. unfold getGraphData. cbn.
    by destruct (props !! "nodes"%string) as [[]|], (props !! "links"%string) as [[]|].
Qed.

Lemma narrativeAPI_error_handling_witness :
  searchStories (Returns (JString "<html>Bad Gateway</html>")) = Returns []
  /\ getGraphData (Returns (JNumber 502)) = Returns {| nodes := []; links := [] |}.
Proof.
  destruct narrativeAPI_error_handling as (_ & _ & Hs & _ & _ & Hg & _).
  split; [apply Hs; reflexivity|apply Hg; discriminate].
Defined.

(** A response that is an array is handed on as it is when the log line
    can be evaluated, ... *)
Example searchStories_array :
  searchStories
    (Returns (JArray [JObject {["summary" := JString "We tried the copilot"]}]))
  = Returns [JObject {["summary" := JString "We tried the copilot"]}].
Proof. vm_compute. reflexivity. Qed.

(** ... and dropped when it cannot: a first story whose [summary] is a
    number makes the log line throw, and the handler returns [[]]. *)
Example searchStories_log_throws :
  searchStories (Returns (JArray [JObject {["summary" := JNumber 5]}])) = Returns [].
Proof. vm_compute. reflexivity. Qed.

(** An array response is an object without [nodes] and [links]. *)
Example getGraphData_array :
  getGraphData (Returns (JArray [JNumber 1])) = Returns {| nodes := []; links := [] |}.
Proof. reflexivity. Qed.

End ApiTheorems.

(** ** The stories pages *)

Section StoriesTheorems.
Import StoriesListPage.

Lemma append_cons (c : ascii) (s t : string) :
  (String c s ++ t)%string = String c (s ++ t)%string.
Proof. reflexivity. Qed.

Lemma append_empty (t : string) : (EmptyString ++ t)%string = t.
Proof. reflexivity. Qed.

Lemma prefix_app (sub s : string) :
  String.prefix sub s = true <-> exists post, s = (sub ++ post)%string.
Proof.
  revert s. induction sub as [|a sub IH]; intros s.
  - destruct s; simpl; split; eauto.
  - destruct s as [|b s]; simpl.
    + split; [intros H; discriminate H|intros [post H]; discriminate H].
    + destruct (ascii_dec a b) as [->|Hne].
      * rewrite IH. split; intros [post H]; exists post;
          rewrite append_cons in *; congruence.
      * split; [intros H; discriminate H|]. intros [post H].
        rewrite append_cons in H. congruence.
Qed.

Lemma str_includes_occurs (s sub : string) :
  str_includes s sub = true <-> occurs_in sub s.
Proof.
  unfold occurs_in. induction s as [|c s IH].
  - cbn [str_includes]. rewrite orb_false_r, prefix_app. split.
    + intros [post H]. by exists ""%string, post.
    + intros (pre & post & H). destruct pre; [eauto|discriminate H].
  - cbn [str_includes]. rewrite orb_true_iff, IH, prefix_app. split.
    + intros [[post H]|(pre & post & H)].
      * by exists ""%string, post.
      * exists (String c pre), post. by rewrite append_cons, H.
    + intros (pre & post & H). destruct pre as [|c' pre].
      * left. eauto.
      * right. exists pre, post. rewrite append_cons in H. congruence.
Qed.

Lemma arr_includes_elem (l : list string) (x : string) :
  arr_includes l x = true <-> x ∈ l.
Proof.
  unfold arr_includes. rewrite existsb_exists, list_elem_of_In. split.
  - intros (y & Hy & E). apply String.eqb_eq in E. by subst.
  - intros H. exists x. split; [done|apply String.eqb_refl].
Qed.

Lemma some_selected_spec (l : option (list string)) (selected : list string) :
  some_selected l selected = true <->
  exists x xs, l = Some xs /\ x ∈ xs /\ x ∈ selected.
Proof.
  destruct l as [xs|]; simpl.
  - rewrite existsb_exists. split.
    + intros (x & Hx & Hsel). exists x, xs.
      split; [done|]. split; [by apply list_elem_of_In|by apply arr_includes_elem].
    + intros (x & xs' & [= <-] & Hx & Hsel). exists x.
      split; [by apply list_elem_of_In|by apply arr_includes_elem].
  - split; [intros H; discriminate H|]. intros (? & ? & H & _). discriminate H.
Qed.

Lemma field_matches_spec (field : option string) (searchLower : string) :
  field_matches field searchLower = true <->
  exists text, field = Some text /\ occurs_in searchLower (lower text).
Proof.
  destruct field as [text|]; simpl.
  - rewrite str_includes_occurs. split; [eauto|]. by intros (? & [= <-] & H).
  - split; [intros H; discriminate H|]. intros (? & H & _). discriminate H.
Qed.

Lemma nonempty_length {A} (l : list A) : (0 <? length l)%nat = true <-> l <> [].
Proof. destruct l; simpl; split; try done; intros H; discriminate H. Qed.

(** The filter callback decides the specification's predicate. *)
Lemma keeps_satisfies (filters : Filters) (story : StoryObject) :
  keeps filters story = true <-> satisfies filters story.
Proof.
  unfold keeps, satisfies.
  pose proof (nonempty_length (types filters)) as Ht.
  pose proof (nonempty_length (themes filters)) as Hth.
  pose proof (nonempty_length (filter_groups filters)) as Hg.
  pose proof (arr_includes_elem (types filters) (type story)) as Hty.
  pose proof (some_selected_spec (primary_themes story) (themes filters)) as Hthm.
  pose proof (some_selected_spec (groups story) (filter_groups filters)) as Hgrp.
  assert ((search filters <> ""%string ->
            exists text, (summary story = Some text \/ outcome story = Some text
                          \/ full_text story = Some text)
                         /\ occurs_in (lower (search filters)) (lower text))
          <-> (if negb (String.eqb (search filters) "")
               then negb (field_matches (summary story) (lower (search filters))
                          || field_matches (outcome story) (lower (search filters))
                          || field_matches (full_text story) (lower (search filters)))
               else false) = false) as ->.
  { destruct (String.eqb_spec (search filters) "") as [E|E]; simpl; [by split|].
    rewrite negb_false_iff, !orb_true_iff, !field_matches_spec. split.
    - intros H. destruct (H E) as (text & [Hf|[Hf|Hf]] & Ho); eauto.
    - intros [[(text & Hf & Ho)|(text & Hf & Ho)]|(text & Hf & Ho)] _; eauto 6. }
  destruct (if negb (String.eqb (search filters) "") then _ else false);
    [split; [done|by intros [? _]]|].
  destruct (0 <? length (types filters))%nat, (arr_includes (types filters) (type story));
  destruct (0 <? length (themes filters))%nat,
           (some_selected (primary_themes story) (themes filters));
  destruct (0 <? length (filter_groups filters))%nat,
           (some_selected (groups story) (filter_groups filters));
  simpl; intuition (try congruence).
Qed.

Lemma filter_decides {A} (f : A -> bool) (P : A -> Prop) `{!forall x, Decision (P x)}
    (l : list A) :
  (forall x, f x = true <-> P x) -> List.filter f l = filter P l.
Proof.
  intros Hf. induction l as [|x l IH]; [done|].
  rewrite filter_cons. simpl. rewrite IH.
  destruct (f x) eqn:E, (decide (P x)) as [HP|HP]; try done.
  - apply Hf in E. contradiction.
  - apply Hf in HP. congruence.
Qed.

#[local] Instance satisfies_dec filters story : Decision (satisfies filters story).
Proof.
  destruct (keeps filters story) eqn:E.
  - left. by apply keeps_satisfies.
  - right. intros H. apply keeps_satisfies in H. congruence.
Defined.

(** C9: [filteredStories] is the list of the stories that satisfy all
    active filters, in their original order; with no active filter it is
    the input list. *)
Theorem filteredStories_spec (stories : list StoryObject) (filters : Filters)
    `{!forall story, Decision (satisfies filters story)} :
  filteredStories (Some stories) filters = filter (satisfies filters) stories
  /\ filteredStories (Some stories) filters `sublist_of` stories
  /\ (forall story, story ∈ filteredStories (Some stories) filters <->
                     story ∈ stories /\ satisfies filters story)
  /\ (search filters = ""%string -> types filters = [] -> themes filters = [] ->
      filter_groups filters = [] ->
      filteredStories (Some stories) filters = stories).
Proof.
  assert (filteredStories (Some stories) filters = filter (satisfies filters) stories) as E.
  { apply filter_decides, keeps_satisfies. }
  split; [done|]. rewrite E. split; [apply sublist_filter|]. split.
  - intros story. rewrite list_elem_of_filter. tauto.
  - intros Hs Ht Hth Hg. rewrite <- E. clear E. simpl.
    induction stories as [|story l IH]; [done|]. simpl.
    unfold keeps at 1. rewrite Hs, Ht, Hth, Hg. simpl. by rewrite IH.
Qed.

Lemma filteredStories_spec_witness :
  filteredStories (Some example_stories) no_filters = example_stories.
Proof.
  apply (filteredStories_spec example_stories no_filters); reflexivity.
Defined.

(** The filters at work on three stories: a search in upper case, a type
    filter, a theme filter, and a group filter on a story that has
    groups. *)
Example filteredStories_examples :
  filteredStories (Some example_stories)
    {| search := "COPILOT"; themes := []; filter_groups := []; types := [] |}
    = [example_story_1; example_story_3]
  /\ filteredStories (Some example_stories)
       {| search := ""; themes := []; filter_groups := []; types := ["failure"] |}
     = [example_story_2]
  /\ filteredStories (Some example_stories)
       {| search := ""; themes := ["trust"; "tooling"]; filter_groups := [];
          types := ["success"; "learning"] |}
     = [example_story_1]
  /\ filteredStories (Some example_stories)
       {| search := ""; themes := []; filter_groups := ["engineering"]; types := [] |}
     = [example_story_3]
  /\ filteredStories None no_filters = [].
Proof. repeat split; vm_compute; reflexivity. Qed.

Lemma keeps_without_groups (filters : Filters) (story : StoryObject) :
  groups story = None -> filter_groups filters <> [] -> keeps filters story = false.
Proof.
  intros Hg Hf. unfold keeps. rewrite Hg. simpl.
  apply nonempty_length in Hf. rewrite Hf. simpl.
  repeat match goal with |- (if ?b then _ else _) = _ => destruct b end; reflexivity.
Qed.

Lemma collect_groups_declared (stories : list Types.Story) (set : list string) :
  fold_left (fun set story => fold_left set_add (default [] (groups story)) set)
            (map of_declared stories) set = set.
Proof. revert set. induction stories as [|s l IH]; intros set; [done|]. simpl. apply IH. Qed.

(** C10: the declared [Story] has no [groups]; for stories of that type an
    active group filter rejects every story, so [filteredStories] is
    empty; [availableGroups] is empty; and the groups badges are never
    rendered. *)
Theorem declared_stories_have_no_groups (stories : list Types.Story) (filters : Filters) :
  (forall s : Types.Story, groups (of_declared s) = None)
  /\ (filter_groups filters <> [] ->
      (forall s : Types.Story, keeps filters (of_declared s) = false)
      /\ filteredStories (Some (map of_declared stories)) filters = [])
  /\ availableGroups (Some (map of_declared stories)) = []
  /\ (forall s : Types.Story, groups_badges_rendered (of_declared s) = false).
Proof.
  split; [done|]. split; [|split].
  - intros Hf.
    assert (forall s : Types.Story, keeps filters (of_declared s) = false) as Hk.
    { intros s. by apply keeps_without_groups. }
    split; [done|]. simpl.
    induction stories as [|s l IH]; [done|]. simpl. by rewrite Hk.
  - unfold availableGroups, collect. by rewrite collect_groups_declared.
  - done.
Qed.

Lemma declared_stories_have_no_groups_witness :
  filteredStories (Some (map of_declared [declared_example]))
    {| search := ""; themes := []; filter_groups := ["engineering"]; types := [] |} = [].
Proof.
  apply (declared_stories_have_no_groups [declared_example]
           {| search := ""; themes := []; filter_groups := ["engineering"]; types := [] |}).
  discriminate.
Defined.

(** The declared story does pass the other filters. *)
Example declared_story_other_filters :
  filteredStories (Some (map of_declared [declared_example]))
    {| search := "pilot"; themes := ["trust"]; filter_groups := []; types := ["success"] |}
  = [of_declared declared_example].
Proof. vm_compute. reflexivity. Qed.

(** [availableThemes] is the sorted list of distinct themes. *)
Example availableThemes_example :
  availableThemes (Some example_stories) = ["fear"; "tooling"; "trust"]
  /\ availableGroups (Some example_stories) = ["engineering"; "sales"].
Proof. split; vm_compute; reflexivity. Qed.

End StoriesTheorems.

(** * Further properties of the code *)

(** ** The API client: what the logging lines do to the results *)

Section ApiLoggingTheorems.
Import JS narrativeAPI.

(** X1: on an array response [searchStories] hands the array on exactly
    when its log line can be evaluated: when the array is empty, when its
    first element is falsy, or when the first element's [summary] is
    absent, [null] or a string; in every other case the array is lost and
    [[]] is returned. *)
Theorem searchStories_array_result (items : list JValue) :
  let loggable :=
    match head items with
    | None => True
    | Some first =>
        truthy first = false
        \/ get_prop first "summary" = JUndefined
        \/ get_prop first "summary" = JNull
        \/ exists s, get_prop first "summary" = JString s
    end in
  (loggable -> searchStories (Returns (JArray items)) = Returns items)
  /\ (~ loggable -> searchStories (Returns (JArray items)) = Returns []).
Proof.
  unfold searchStories, log_stories_response, summary_preview.
  destruct items as [|first rest]; cbn.
  - split; [done|]. intros H. by destruct H.
  - destruct (truthy first); [|split; [done|intros H; destruct H; by left]].
    destruct (get_prop first "summary") eqn:E; cbn;
      (split; [intros Hl|intros Hn]); try reflexivity;
      try (exfalso; apply Hn; eauto 6; fail);
      destruct Hl as [H|[H|[H|[s H]]]]; congruence.
Qed.

Lemma searchStories_array_result_witness :
  searchStories (Returns (JArray [JObject {["summary" := JNull]}; JNumber 1]))
  = Returns [JObject {["summary" := JNull]}; JNumber 1].
Proof.
  apply (searchStories_array_result [JObject {["summary" := JNull]}; JNumber 1]).
  cbn. right. right. left. reflexivity.
Defined.

(** X2: [getNarrativeIndex] never throws and returns the response's array
    when it is one and [[]] otherwise; here a log line that throws (on an
    object, a number or a boolean) cannot change the result. *)
Theorem getNarrativeIndex_result (response : Response) :
  getNarrativeIndex response =
    Returns match response with
            | Returns (JArray items) => items
            | _ => []
            end
  /\ (forall props,
        log_index_response (JObject props) <> Returns tt
        /\ getNarrativeIndex (Returns (JObject props)) = Returns []).
Proof.
  split.
  - destruct response as [data|error]; [|reflexivity].
    by destruct data.
  - intros props. split; [discriminate|reflexivity].
Qed.

End ApiLoggingTheorems.

Section ChatApiTheorems.
Import JS chatAPI.

(** X3: [chatAPI.sendMessage] rethrows the error of a failed request, and
    throws a [TypeError] of its own when the request succeeds with a
    [null] or missing body; every other body is returned as it is. It
    never returns [null] or [undefined]. *)
Theorem sendMessage_result :
  (forall error, sendMessage (Throws error) = Throws error)
  /\ (forall data, data <> JNull -> data <> JUndefined ->
        sendMessage (Returns data) = Returns data)
  /\ (exists message, sendMessage (Returns JNull) = Throws (TypeError message))
  /\ (exists message, sendMessage (Returns JUndefined) = Throws (TypeError message))
  /\ (forall response data,
        sendMessage response = Returns data -> data <> JNull /\ data <> JUndefined).
Proof.
  split; [done|]. split; [|split; [by eexists|split; [by eexists|]]].
  - intros data H1 H2. by destruct data.
  - intros [d|e] data; [|discriminate]. destruct d; cbn; intros [= <-]; done.
Qed.

Lemma sendMessage_result_witness :
  sendMessage (Returns (JString "")) = Returns (JString "").
Proof.
  destruct sendMessage_result as (_ & H & _). apply H; discriminate.
Defined.

End ChatApiTheorems.

(** ** The filter panel *)

Section FilterPanelTheorems.
Import StoriesListPage StoryFilters.

Lemma toggle_elem (prev : list string) (x y : string) :
  y ∈ toggle prev x <-> (y ∈ prev /\ y <> x) \/ (y = x /\ x ∉ prev).
Proof.
  unfold toggle. destruct (arr_includes prev x) eqn:E.
  - apply arr_includes_elem in E.
    rewrite list_elem_of_In, filter_In, <- list_elem_of_In, negb_true_iff, eqb_neq.
    split; [tauto|]. intros [?|[-> ?]]; tauto.
  - assert (x ∉ prev) as Hx.
    { intros H. apply arr_includes_elem in H. congruence. }
    rewrite elem_of_app, list_elem_of_singleton. split.
    + intros [H| ->]; [left|right]; [|done]. split; [done|]. by intros ->.
    + intros [[? ?]|[-> ?]]; tauto.
Qed.

Lemma toggle_NoDup (prev : list string) (x : string) :
  NoDup prev -> NoDup (toggle prev x).
Proof.
  intros H. unfold toggle. destruct (arr_includes prev x) eqn:E.
  - by apply NoDup_ListNoDup, List.NoDup_filter, NoDup_ListNoDup.
  - apply NoDup_app. split; [done|]. split; [|apply NoDup_singleton].
    intros y Hy ->%list_elem_of_singleton.
    apply arr_includes_elem in Hy. congruence.
Qed.

(** X4: a click on a badge flips the membership of that one value in the
    selection and of no other, and keeps the selection free of
    duplicates. *)
Theorem toggle_flips_one (prev : list string) (x : string) :
  (x ∈ toggle prev x <-> x ∉ prev)
  /\ (forall y, y <> x -> (y ∈ toggle prev x <-> y ∈ prev))
  /\ (NoDup prev -> NoDup (toggle prev x))
  /\ (x ∉ prev -> toggle (toggle prev x) x = prev).
Proof.
  split; [|split; [|split]].
  - rewrite toggle_elem. tauto.
  - intros y Hy. rewrite toggle_elem. tauto.
  - apply toggle_NoDup.
  - intros Hx. unfold toggle at 2.
    destruct (arr_includes prev x) eqn:E; [apply arr_includes_elem in E; done|].
    unfold toggle.
    assert (arr_includes (prev ++ [x]) x = true) as ->.
    { apply arr_includes_elem. set_solver. }
    rewrite List.filter_app. simpl. rewrite String.eqb_refl. simpl.
    rewrite app_nil_r. clear E.
    induction prev as [|y l IH]; [done|]. simpl.
    destruct (String.eqb_spec y x) as [->|Hne]; [set_solver|].
    simpl. f_equal. apply IH. set_solver.
Qed.

Lemma toggle_flips_one_witness :
  toggle (toggle ["trust"; "fear"] "tooling") "tooling" = ["trust"; "fear"]%string.
Proof.
  apply (toggle_flips_one ["trust"; "fear"] "tooling").
  intros H. apply arr_includes_elem in H. discriminate H.
Defined.

(** X5: whatever the user clicks and types, starting from the cleared
    panel, no selection ever holds a value twice. *)
Theorem selections_never_hold_duplicates (actions : list Action) :
  let state := fold_left act actions no_filters in
  NoDup (themes state) /\ NoDup (filter_groups state) /\ NoDup (types state).
Proof.
  cbn zeta.
  assert (forall state,
            NoDup (themes state) /\ NoDup (filter_groups state) /\ NoDup (types state) ->
            NoDup (themes (fold_left act actions state))
            /\ NoDup (filter_groups (fold_left act actions state))
            /\ NoDup (types (fold_left act actions state))) as H.
  { induction actions as [|a l IH]; intros state Hs; [done|].
    simpl. apply IH. destruct Hs as (H1 & H2 & H3).
    destruct a; simpl; repeat split; try done;
      try apply toggle_NoDup; try done; apply NoDup_nil_2. }
  apply H. simpl. repeat split; apply NoDup_nil_2.
Qed.

Lemma nonempty_elem {A} (l : list A) : l <> [] <-> exists x, x ∈ l.
Proof.
  destruct l as [|x l]; split; try done.
  - intros [x H]. by apply elem_of_nil in H.
  - intros _. exists x. by left.
Qed.

(** The filter callback reads the selections as sets. *)
Lemma keeps_same_members (f f' : Filters) (story : StoryObject) :
  search f = search f' ->
  (forall x, x ∈ types f <-> x ∈ types f') ->
  (forall x, x ∈ themes f <-> x ∈ themes f') ->
  (forall x, x ∈ filter_groups f <-> x ∈ filter_groups f') ->
  keeps f story = keeps f' story.
Proof.
  intros Hs Ht Hth Hg.
  assert (satisfies f story <-> satisfies f' story) as Hiff.
  { unfold satisfies. rewrite Hs, !nonempty_elem.
    setoid_rewrite Ht. setoid_rewrite Hth. setoid_rewrite Hg. tauto. }
  rewrite <- !keeps_satisfies in Hiff.
  destruct (keeps f story), (keeps f' story); try done.
  - symmetry. by apply Hiff.
  - by apply Hiff.
Qed.

Lemma toggle_twice_members (prev : list string) (x y : string) :
  y ∈ toggle (toggle prev x) x <-> y ∈ prev.
Proof.
  rewrite !toggle_elem. destruct (decide (y = x)) as [->|Hne]; [|tauto].
  destruct (decide (x ∈ prev)); tauto.
Qed.

(** X6: clicking the same type, theme or group badge twice leaves the list
    of stories shown as it was. *)
Theorem toggle_twice_same_stories
    (stories : option (list StoryObject)) (filters : Filters) (x : string) :
  filteredStories stories (toggleType (toggleType filters x) x)
    = filteredStories stories filters
  /\ filteredStories stories (toggleTheme (toggleTheme filters x) x)
      = filteredStories stories filters
  /\ filteredStories stories (toggleGroup (toggleGroup filters x) x)
      = filteredStories stories filters.
Proof.
  destruct stories as [l|]; [|done]. simpl.
  repeat split; apply List.filter_ext; intros story;
    apply keeps_same_members; simpl; try done;
    intros y; apply toggle_twice_members.
Qed.

Lemma hasActiveFilters_false (state : Filters) :
  hasActiveFilters state = false <->
  search state = ""%string /\ themes state = [] /\ filter_groups state = []
  /\ types state = [].
Proof.
  unfold hasActiveFilters.
  rewrite !orb_false_iff, negb_false_iff, String.eqb_eq.
  destruct (themes state), (filter_groups state), (types state); simpl;
    intuition (try discriminate; try reflexivity).
Qed.

Lemma filter_keeps_inactive (l : list StoryObject) (filters : Filters) :
  hasActiveFilters filters = false -> List.filter (keeps filters) l = l.
Proof.
  intros (Hs & Hth & Hg & Ht)%hasActiveFilters_false.
  induction l as [|story l IH]; [done|]. simpl.
  unfold keeps at 1. rewrite Hs, Ht, Hth, Hg. simpl. by rewrite IH.
Qed.

(** X7: outside loading, the page says that no stories are available in
    the database exactly when there are none (or none were delivered) and
    no filter is active; with an active filter an empty database is
    reported as a filter that matches nothing. *)
Theorem empty_state_message_truthful
    (stories : option (list StoryObject)) (filters : Filters) :
  (empty_state_message false stories filters
     = Some "No stories available in the database"%string
   <-> (stories = None \/ stories = Some []) /\ hasActiveFilters filters = false)
  /\ (hasActiveFilters filters = true ->
      empty_state_message false (Some []) filters
        = Some "Try adjusting your filters to see more results"%string)
  /\ (forall loading, empty_state_message loading stories filters <> None <->
        loading = false /\ filteredStories stories filters = []).
Proof.
  unfold empty_state_message. fold (hasActiveFilters filters).
  split; [|split].
  - simpl. destruct (hasActiveFilters filters) eqn:Ha.
    + destruct (length _ =? 0)%nat; split; try done; intros [_ H]; done.
    + destruct stories as [l|]; simpl.
      * rewrite filter_keeps_inactive by done.
        destruct l; simpl; split; try done; eauto.
        intros [[H|H] _]; done.
      * split; eauto.
  - intros ->. reflexivity.
  - intros loading. destruct loading; simpl; [split; [done|intros [H _]; done]|].
    destruct (filteredStories stories filters); simpl; split; try done.
    intros [_ H]. done.
Qed.

Lemma empty_state_message_truthful_witness :
  empty_state_message false (Some [])
    {| search := "copilot"; themes := []; filter_groups := []; types := [] |}
  = Some "Try adjusting your filters to see more results"%string.
Proof.
  apply (empty_state_message_truthful (Some [])
           {| search := "copilot"; themes := []; filter_groups := []; types := [] |}).
  reflexivity.
Defined.

End FilterPanelTheorems.

(** ** Theme and group lists *)

Section AvailableListsTheorems.
Import StoriesListPage.

Lemma leb_total (x y : string) : String.leb x y = false -> String.leb y x = true.
Proof.
  unfold String.leb. rewrite (String.compare_antisym y x).
  by destruct (String.compare x y).
Qed.

Lemma sort_insert_perm (x : string) (l : list string) : sort_insert x l ≡ₚ x :: l.
Proof.
  induction l as [|y l IH]; [done|]. simpl.
  destruct (String.leb x y); [done|]. rewrite IH. apply Permutation_swap.
Qed.

Lemma sort_perm (l : list string) : sort l ≡ₚ l.
Proof.
  induction l as [|x l IH]; [done|]. simpl.
  by rewrite sort_insert_perm, IH.
Qed.

Lemma sort_insert_sorted (x : string) (l : list string) :
  Sorted (fun a b => String.leb a b = true) l ->
  Sorted (fun a b => String.leb a b = true) (sort_insert x l).
Proof.
  induction 1 as [|y l Hl IH Hhd]; simpl.
  - by repeat constructor.
  - destruct (String.leb x y) eqn:E.
    + constructor; [by constructor|by constructor].
    + constructor; [done|].
      destruct Hhd as [|z l' Hz]; simpl.
      * constructor. by apply leb_total.
      * destruct (String.leb x z); constructor; [by apply leb_total|done].
Qed.

Lemma sort_sorted (l : list string) :
  Sorted (fun a b => String.leb a b = true) (sort l).
Proof.
  induction l as [|x l IH]; simpl; [constructor|by apply sort_insert_sorted].
Qed.

Lemma set_add_elem (set : list string) (x y : string) :
  y ∈ set_add set x <-> y ∈ set \/ y = x.
Proof.
  unfold set_add. destruct (arr_includes set x) eqn:E.
  - apply arr_includes_elem in E. split; [tauto|]. by intros [?| ->].
  - by rewrite elem_of_app, list_elem_of_singleton.
Qed.

Lemma set_add_NoDup (set : list string) (x : string) :
  NoDup set -> NoDup (set_add set x).
Proof.
  intros H. unfold set_add. destruct (arr_includes set x) eqn:E; [done|].
  apply NoDup_app. split; [done|]. split; [|apply NoDup_singleton].
  intros y Hy ->%list_elem_of_singleton.
  apply arr_includes_elem in Hy. congruence.
Qed.

Lemma fold_set_add_spec (xs set : list string) :
  (NoDup set -> NoDup (fold_left set_add xs set))
  /\ (forall y, y ∈ fold_left set_add xs set <-> y ∈ set \/ y ∈ xs).
Proof.
  revert set. induction xs as [|x xs IH]; intros set; simpl.
  - split; [done|]. intros y. rewrite elem_of_nil. tauto.
  - destruct (IH (set_add set x)) as [IH1 IH2]. split.
    + intros H. by apply IH1, set_add_NoDup.
    + intros y. rewrite IH2, set_add_elem, elem_of_cons. tauto.
Qed.

Lemma collect_flat_map (field : StoryObject -> option (list string))
    (stories : list StoryObject) (set : list string) :
  fold_left (fun set story => fold_left set_add (default [] (field story)) set)
            stories set
  = fold_left set_add (flat_map (fun s => default [] (field s)) stories) set.
Proof.
  revert set. induction stories as [|s l IH]; intros set; [done|].
  simpl. by rewrite fold_left_app, IH.
Qed.

Lemma collect_spec (field : StoryObject -> option (list string))
    (stories : list StoryObject) :
  NoDup (collect field stories)
  /\ (forall y, y ∈ collect field stories <->
                exists story ys, story ∈ stories /\ field story = Some ys /\ y ∈ ys).
Proof.
  unfold collect. rewrite collect_flat_map.
  destruct (fold_set_add_spec (flat_map (fun s => default [] (field s)) stories) [])
    as [H1 H2].
  split; [apply H1, NoDup_nil_2|].
  intros y. rewrite H2, elem_of_nil, list_elem_of_In, in_flat_map. split.
  - intros [[]|(story & Hs & Hy)]. exists story.
    destruct (field story) as [ys|]; simpl in Hy; [|done].
    exists ys. by rewrite !list_elem_of_In.
  - intros (story & ys & Hs & Hf & Hy). right. exists story.
    rewrite Hf. simpl. by rewrite <- !list_elem_of_In.
Qed.

(** X8: the theme and group lists offered as filters are in ascending
    order, hold no value twice, and hold exactly the themes (groups) that
    some story carries. *)
Theorem available_lists_sorted_distinct (stories : list StoryObject) :
  (Sorted (fun a b => String.leb a b = true) (availableThemes (Some stories))
   /\ NoDup (availableThemes (Some stories))
   /\ forall theme, theme ∈ availableThemes (Some stories) <->
        exists story ts, story ∈ stories /\ primary_themes story = Some ts
                         /\ theme ∈ ts)
  /\ (Sorted (fun a b => String.leb a b = true) (availableGroups (Some stories))
      /\ NoDup (availableGroups (Some stories))
      /\ forall g, g ∈ availableGroups (Some stories) <->
           exists story gs, story ∈ stories /\ groups story = Some gs /\ g ∈ gs).
Proof.
  unfold availableThemes, availableGroups.
  split; (split; [apply sort_sorted|]);
    match goal with |- context [collect ?f stories] =>
      destruct (collect_spec f stories) as [Hnd Hel] end;
    (split; [by rewrite sort_perm|]); intros y; by rewrite sort_perm, Hel.
Qed.

(** X9: the Active Groups count of the home page is the number of group
    filters the stories page offers for the same stories; for stories of
    the declared type it is 0. *)
Theorem activeGroupsCount_is_filter_count :
  (forall stories,
     HomePage.activeGroupsCount stories = length (availableGroups stories))
  /\ (forall declared : list Types.Story,
        HomePage.activeGroupsCount (Some (map of_declared declared)) = 0%nat).
Proof.
  assert (forall stories,
            HomePage.activeGroupsCount stories = length (availableGroups stories)) as H.
  { intros [l|]; [|done].
    unfold HomePage.activeGroupsCount, HomePage.uniqueGroups, availableGroups, collect.
    by rewrite sort_perm, collect_flat_map. }
  split; [done|]. intros declared. rewrite H.
  unfold availableGroups, collect. by rewrite collect_groups_declared.
Qed.

End AvailableListsTheorems.

(** ** The story card *)

Section StoryCardTheorems.
Import StoriesListPage StoryCard.

(** X10: the card shows at most three themes and two groups, the first
    ones in their order, and the number on the [+N] badge is the number of
    those left out: badges shown plus N is the number of themes
    (groups). *)
Theorem badges_account_for_all (story : StoryObject) :
  let ts := default [] (primary_themes story) in
  let gs := default [] (groups story) in
  (theme_badges story = take 3 ts
   /\ (length (theme_badges story) + default 0 (theme_overflow story) = length ts)%nat
   /\ (theme_overflow story = None <-> length ts <= 3)%nat)
  /\ (group_badges story = take 2 gs
      /\ (length (group_badges story) + default 0 (group_overflow story) = length gs)%nat
      /\ (group_overflow story = None <-> length gs <= 2)%nat).
Proof.
  unfold theme_badges, theme_overflow, group_badges, group_overflow.
  destruct (primary_themes story) as [[|t ts]|], (groups story) as [[|g gs]|];
    cbn zeta; cbn [default];
    repeat match goal with
    | |- context [(?n <? length ?l)%nat] => destruct (Nat.ltb_spec n (length l))
    end;
    rewrite ?length_take; cbn [default length] in *;
    unfold from_option, id in *; cbn [length] in *;
    repeat split; try done; try lia; intros; lia.
Qed.

End StoryCardTheorems.

(** ** The story distribution of the dashboard *)

Section DashboardTheorems.
Import StoriesListPage Dashboard.

Lemma type_count_cons (s : StoryObject) (l : list StoryObject) (ty : string) :
  type_count (Some (s :: l)) ty
  = ((if String.eqb (type s) ty then 1 else 0) + type_count (Some l) ty)%nat.
Proof. simpl. by destruct (String.eqb (type s) ty). Qed.

Lemma listed_indicator (x : string) :
  sum_list (map (fun ty => if String.eqb x ty then 1 else 0) distribution_types)
  = if arr_includes distribution_types x then 1%nat else 0%nat.
Proof.
  unfold distribution_types, arr_includes. cbn [map sum_list existsb].
  repeat match goal with
  | |- context [String.eqb x ?ty] =>
      destruct (String.eqb_spec x ty) as [->|?]; [reflexivity|]
  end.
  reflexivity.
Qed.

Lemma listed_counts (stories : list StoryObject) :
  sum_list (map (type_count (Some stories)) distribution_types)
  = length (List.filter (fun s => arr_includes distribution_types (type s)) stories).
Proof.
  induction stories as [|s l IH]; [done|].
  cbn [List.filter]. 
  transitivity
    (sum_list (map (fun ty => if String.eqb (type s) ty then 1 else 0) distribution_types)
     + sum_list (map (type_count (Some l)) distribution_types))%nat.
  - unfold distribution_types. cbn [map sum_list]. rewrite !type_count_cons.
    unfold id. lia.
  - rewrite listed_indicator, IH.
    by destruct (arr_includes distribution_types (type s)).
Qed.

Lemma type_count_le (stories : option (list StoryObject)) (ty : string) :
  (type_count stories ty <= denominator stories)%nat.
Proof.
  destruct stories as [[|s l]|]; simpl; try lia.
  pose proof (List.filter_length_le (fun s0 => String.eqb (type s0) ty) l).
  destruct (String.eqb (type s) ty); simpl; lia.
Qed.

(** X11: the five bars of the story distribution count the stories of the
    five listed types only: for stories of the declared type the counts
    add up to the total less the conflict and innovation stories. Every
    bar is between 0 and 100 percent wide, and 0 wide when there are no
    stories, where the denominator is 1. *)
Theorem distribution_counts :
  (forall stories : list StoryObject,
     sum_list (map (type_count (Some stories)) distribution_types)
     = length (List.filter (fun s => arr_includes distribution_types (type s)) stories))
  /\ (forall declared : list Types.Story,
        let stories := Some (map of_declared declared) in
        (sum_list (map (type_count stories) distribution_types)
         + type_count stories "conflict" + type_count stories "innovation"
         = length declared)%nat)
  /\ (forall stories ty, (0 <= bar_width stories ty <= 100)%Q)
  /\ (forall ty, bar_width None ty == 0 /\ bar_width (Some []) ty == 0)%Q.
Proof.
  split; [apply listed_counts|]. split; [|split].
  - intros declared. cbn zeta.
    induction declared as [|s l IH]; [done|].
    unfold distribution_types in *. cbn [map sum_list] in *.
    rewrite !type_count_cons. cbn [length]. unfold id in *.
    destruct s as [? ? ? ty ? ? ? ? ? ? ? ? ? ? ? ?].
    destruct ty; cbn [of_declared type Types.type Types.StoryType_string String.eqb
                      Ascii.eqb Bool.eqb andb]; lia.
  - intros stories ty. unfold bar_width.
    pose proof (type_count_le stories ty) as Hle.
    assert (0 < denominator stories)%nat as Hpos
      by (destruct stories as [[|? ?]|]; simpl; lia).
    assert (0 < inject_Z (Z.of_nat (denominator stories)))%Q as Hq.
    { change 0%Q with (inject_Z 0). rewrite <- Zlt_Qlt. lia. }
    assert (0 <= inject_Z (Z.of_nat (type_count stories ty)))%Q as H0.
    { change 0%Q with (inject_Z 0). rewrite <- Zle_Qle. lia. }
    assert (inject_Z (Z.of_nat (type_count stories ty))
            <= inject_Z (Z.of_nat (denominator stories)))%Q as H1.
    { rewrite <- Zle_Qle. lia. }
    assert (0 <= inject_Z (Z.of_nat (type_count stories ty))
                 / inject_Z (Z.of_nat (denominator stories)) <= 1)%Q as [Ha Hb].
    { split.
      - apply Qle_shift_div_l; [done|]. lra.
      - apply Qle_shift_div_r; [done|]. lra. }
    split; lra.
  - intros ty. split; reflexivity.
Qed.

End DashboardTheorems.

(** ** The sidebar *)

Section AppLayoutTheorems.
Import AppLayout.

Lemma prefix_cons2 (a b c d : ascii) (r s : string) :
  String.prefix (String a (String b r)) (String c (String d s)) = true ->
  a = c /\ b = d.
Proof.
  cbn [String.prefix].
  destruct (ascii_dec a c); [|discriminate].
  destruct (ascii_dec b d); [|discriminate]. done.
Qed.

(** X12: for every path at most one entry of the sidebar is highlighted;
    Home is highlighted on the path [/] only; every other entry is
    highlighted exactly on the paths that start with the characters of
    its [href], a segment boundary or not. *)
Theorem navigation_at_most_one_active (pathname : string) :
  (length (List.filter (isActive pathname) navigation) <= 1)%nat
  /\ (isActive pathname "/" = true <-> pathname = "/"%string)
  /\ (forall href, href <> "/"%string ->
        (isActive pathname href = true <->
         exists rest, pathname = (href ++ rest)%string)).
Proof.
  split; [|split].
  - destruct (String.eqb_spec pathname "/") as [->|Hne]; [vm_compute; lia|].
    unfold navigation. cbn [List.filter].
    assert (isActive pathname "/" = false) as ->.
    { unfold isActive. simpl. by apply String.eqb_neq. }
    unfold isActive. cbn [String.eqb Ascii.eqb Bool.eqb andb].
    destruct pathname as [|c [|d s]]; [vm_compute; lia| |].
    + cbn [String.prefix]. destruct (ascii_dec "/" c); simpl; lia.
    + repeat match goal with
      | |- context [String.prefix ?h (String c (String d s))] =>
          let E := fresh "E" in
          destruct (String.prefix h (String c (String d s))) eqn:E;
          [apply prefix_cons2 in E; destruct E as [? ?]|]
      end; simpl; try lia; exfalso; congruence.
  - unfold isActive. simpl. apply String.eqb_eq.
  - intros href Hne. unfold isActive.
    apply String.eqb_neq in Hne. rewrite Hne.
    apply prefix_app.
Qed.

Lemma navigation_at_most_one_active_witness :
  isActive "/storiesabc" "/stories" = true.
Proof.
  apply (navigation_at_most_one_active "/storiesabc"); [discriminate|].
  by exists "abc"%string.
Defined.

End AppLayoutTheorems.

(** ** ResistanceMapper *)

Section ResistanceTheorems.
Import AdoptionReadinessScorer ResistanceMapper.

Lemma mentions_spec (indicators : list string) (s : story) :
  mentions indicators s = true <->
  exists marker, marker ∈ indicators /\ occurs_in marker (summary_lower s).
Proof.
  unfold mentions. rewrite existsb_exists.
  setoid_rewrite str_includes_occurs. by setoid_rewrite <- list_elem_of_In.
Qed.

Lemma detect_spec (group_stories : list story) (entry : string * PatternDef)
    (d : DetectedPattern) :
  detect group_stories entry = Some d ->
  let matches := List.filter (mentions (markers (snd entry))) group_stories in
  pattern d = fst entry
  /\ pattern_severity d = severity (snd entry)
  /\ frequency d = length matches
  /\ examples d = take 3 matches
  /\ (1 <= frequency d <= length group_stories)%nat
  /\ length (examples d) = (3 `min` frequency d)%nat.
Proof.
  unfold detect. intros H. cbn zeta.
  pose proof (List.filter_length_le (mentions (markers (snd entry))) group_stories) as Hle.
  destruct (List.filter (mentions (markers (snd entry))) group_stories) as [|m ms] eqn:E;
    [done|].
  injection H as <-. cbn [pattern pattern_severity frequency examples].
  cbn [length] in *. rewrite length_take. repeat split; lia.
Qed.

Lemma detect_some (group_stories : list story) (entry : string * PatternDef) :
  is_Some (detect group_stories entry) <->
  exists s, s ∈ group_stories /\ mentions (markers (snd entry)) s = true.
Proof.
  unfold detect.
  destruct (List.filter (mentions (markers (snd entry))) group_stories) as [|m ms] eqn:E.
  - split; [by intros [? ?]|]. intros (s & Hs & Hm).
    assert (In s (List.filter (mentions (markers (snd entry))) group_stories)) as Hin
      by (apply filter_In; by rewrite <- list_elem_of_In).
    rewrite E in Hin. destruct Hin.
  - split; [|by eexists]. intros _. exists m.
    assert (In m (List.filter (mentions (markers (snd entry))) group_stories)) as Hin
      by (rewrite E; by left).
    apply filter_In in Hin. by rewrite list_elem_of_In.
Qed.

(** X13: [identify_resistance_patterns] reports each pattern of the
    catalog at most once and in catalog order; a pattern is reported
    exactly when some story's lower-cased summary contains one of its
    markers; its frequency is the number of such stories, at least 1 and
    at most the number of stories, and its examples are the first three
    of them. Without stories nothing is reported. *)
Theorem identify_resistance_patterns_sound (group_stories : list story) :
  map pattern (identify_resistance_patterns group_stories)
    `sublist_of` map fst RESISTANCE_PATTERNS
  /\ (forall d, d ∈ identify_resistance_patterns group_stories ->
        exists def, (pattern d, def) ∈ RESISTANCE_PATTERNS
          /\ pattern_severity d = severity def
          /\ frequency d = length (List.filter (mentions (markers def)) group_stories)
          /\ examples d = take 3 (List.filter (mentions (markers def)) group_stories)
          /\ (1 <= frequency d <= length group_stories)%nat
          /\ length (examples d) = (3 `min` frequency d)%nat)
  /\ (forall name def, (name, def) ∈ RESISTANCE_PATTERNS ->
        (name ∈ map pattern (identify_resistance_patterns group_stories) <->
         exists s marker, s ∈ group_stories /\ marker ∈ markers def
                          /\ occurs_in marker (summary_lower s)))
  /\ identify_resistance_patterns [] = [].
Proof.
  unfold identify_resistance_patterns.
  assert (forall catalog : list (string * PatternDef),
            map pattern (omap (detect group_stories) catalog)
              `sublist_of` map fst catalog) as Hsub.
  { induction catalog as [|e l IH]; [done|]. cbn.
    destruct (detect group_stories e) as [d|] eqn:E; cbn.
    - apply detect_spec in E as (-> & _). by constructor.
    - by constructor. }
  split; [apply Hsub|]. split; [|split; [|done]].
  - intros d (entry & Hin & Hd)%list_elem_of_omap.
    apply detect_spec in Hd as (H1 & H2 & H3 & H4 & H5 & H6).
    exists (snd entry). by rewrite H1, <- surjective_pairing.
  - intros name def Hin.
    transitivity (is_Some (detect group_stories (name, def))).
    + rewrite list_elem_of_fmap. setoid_rewrite list_elem_of_omap. split.
      * intros (d & -> & entry & Hentry & Hd).
        pose proof (detect_spec _ _ _ Hd) as (Hp & _).
        assert (entry = (pattern d, def)) as ->; [|by eexists].
        destruct entry as [n' def']. simpl in Hp. subst n'. f_equal.
        unfold RESISTANCE_PATTERNS in Hentry, Hin.
        rewrite !elem_of_cons, elem_of_nil in Hentry, Hin.
        destruct Hentry as [E1|[E1|[E1|[E1|[]]]]], Hin as [E2|[E2|[E2|[E2|[]]]]];
          congruence.
      * intros [d Hd]. exists d. split.
        { by apply detect_spec in Hd as (-> & _). }
        eauto.
    + rewrite detect_some. simpl. setoid_rewrite mentions_spec.
      split; [intros (s & Hs & marker & Hm & Ho)|intros (s & marker & Hs & Hm & Ho)];
        eauto 8.
Qed.

End ResistanceTheorems.

(** ** More on the readiness scorer *)

Section ScorerTheorems.
Import AdoptionReadinessScorer.

Lemma Qdiv_eq_iff (a t c : Q) : (0 < t)%Q -> (a / t == c <-> a == c * t)%Q.
Proof.
  intros Ht. split; intros H.
  - rewrite <- H. field. lra.
  - rewrite H. field. lra.
Qed.

Lemma Qdiv_le_cross (a b c d : Q) :
  (0 < b)%Q -> (0 < d)%Q -> (a * d <= c * b)%Q -> (a / b <= c / d)%Q.
Proof.
  intros Hb Hd H. apply Qle_shift_div_r; [done|].
  setoid_replace (c / d * b)%Q with (c * b / d)%Q using relation Qeq by (field; lra).
  by apply Qle_shift_div_l.
Qed.

Lemma inject_Z_pos (z : Z) : (0 < z)%Z -> (0 < inject_Z z)%Q.
Proof. intros H. change 0%Q with (inject_Z 0). by rewrite <- Zlt_Qlt. Qed.

(** X14: what the trust score can tell: it is 1 exactly when there are
    positive signals and no negative one, 0 exactly when there are
    negative signals and no positive one, and 0.5 exactly when the two
    counts are equal, which covers the case of no signal at all. *)
Theorem trust_score_landmarks (all_stories : list story) :
  let r := score_trust_levels all_stories in
  (trust_score r == 1 <-> (0 < positive_signals r)%Z /\ negative_signals r = 0%Z)%Q
  /\ (trust_score r == 0 <-> positive_signals r = 0%Z /\ (0 < negative_signals r)%Z)%Q
  /\ (trust_score r == 0.5 <-> positive_signals r = negative_signals r)%Q.
Proof.
  unfold score_trust_levels. cbn [trust_score positive_signals negative_signals].
  pose proof (count_mentions_nonneg trust_positive all_stories) as Hp.
  pose proof (count_mentions_nonneg trust_negative all_stories) as Hn.
  set (p := count_mentions trust_positive all_stories) in *.
  set (n := count_mentions trust_negative all_stories) in *.
  clearbody p n.
  destruct (Z.ltb_spec 0 (p + n)) as [Hpos|Hzero].
  - rewrite !Qdiv_eq_iff by (by apply inject_Z_pos).
    rewrite inject_Z_plus.
    assert (forall x y : Z, (inject_Z x == inject_Z y)%Q <-> x = y) as Hinj.
    { intros x y. split; [apply inject_Z_injective|by intros ->]. }
    split; [|split]; (split; [intros H|]).
    + assert (inject_Z n == 0)%Q as H0 by (clear Hinj; lra).
      apply (proj1 (Hinj n 0%Z)) in H0. lia.
    + intros [_ ->]. change (inject_Z 0) with 0%Q. clear Hinj. lra.
    + assert (inject_Z p == 0)%Q as H0 by (clear Hinj; lra).
      apply (proj1 (Hinj p 0%Z)) in H0. lia.
    + intros [-> _]. change (inject_Z 0) with 0%Q. clear Hinj. lra.
    + apply (proj1 (Hinj p n)). clear Hinj. lra.
    + intros ->. clear Hinj. lra.
  - assert (p = 0 /\ n = 0)%Z as [-> ->] by lia.
    split; [|split]; (split; [intros H|]).
    + by vm_compute in H.
    + intros [? _]. lia.
    + by vm_compute in H.
    + intros [_ ?]. lia.
    + done.
    + intros _. reflexivity.
Qed.

Lemma count_mentions_app indicators (l k : list story) :
  count_mentions indicators (l ++ k)
  = (count_mentions indicators l + count_mentions indicators k)%Z.
Proof. unfold count_mentions. rewrite List.filter_app, length_app. lia. Qed.

Lemma count_mentions_perm indicators (l k : list story) :
  l ≡ₚ k -> count_mentions indicators l = count_mentions indicators k.
Proof.
  intros H. unfold count_mentions. f_equal.
  induction H as [|x l k H IH|x y l|l k m H1 IH1 H2 IH2]; simpl; try done.
  - destruct (mentions indicators x); simpl; by rewrite ?IH.
  - by destruct (mentions indicators x), (mentions indicators y).
  - by rewrite IH1.
Qed.

(** X15: the trust score does not depend on the order of the stories, and
    one more story that carries a positive indicator and no negative one
    never lowers it. *)
Theorem trust_score_order_and_growth (all_stories : list story) :
  (forall reordered, all_stories ≡ₚ reordered ->
     score_trust_levels reordered = score_trust_levels all_stories)
  /\ (forall s, mentions trust_positive s = true -> mentions trust_negative s = false ->
        (trust_score (score_trust_levels all_stories)
         <= trust_score (score_trust_levels (all_stories ++ [s])))%Q).
Proof.
  split.
  - intros reordered H. unfold score_trust_levels.
    by rewrite <- !(count_mentions_perm _ _ _ H).
  - intros s Hp Hn. unfold score_trust_levels. cbn [trust_score].
    rewrite !count_mentions_app.
    assert (count_mentions trust_positive [s] = 1%Z) as ->
      by (unfold count_mentions; cbn [List.filter]; by rewrite Hp).
    assert (count_mentions trust_negative [s] = 0%Z) as ->
      by (unfold count_mentions; cbn [List.filter]; by rewrite Hn).
    pose proof (count_mentions_nonneg trust_positive all_stories) as H1.
    pose proof (count_mentions_nonneg trust_negative all_stories) as H2.
    set (p := count_mentions trust_positive all_stories) in *.
    set (n := count_mentions trust_negative all_stories) in *.
    clearbody p n.
    destruct (Z.ltb_spec 0 (p + 1 + (n + 0))) as [_|?]; [|lia].
    destruct (Z.ltb_spec 0 (p + n)) as [Hpos|Hzero].
    + apply Qdiv_le_cross; [by apply inject_Z_pos|apply inject_Z_pos; lia|].
      rewrite <- !inject_Z_mult, <- Zle_Qle. nia.
    + assert (p = 0 /\ n = 0)%Z as [-> ->] by lia. by vm_compute.
Qed.

Lemma trust_score_order_and_growth_witness :
  (trust_score (score_trust_levels [ {["summary" := "Promised but never shipped"]} ])
   <= trust_score (score_trust_levels
        ([ {["summary" := "Promised but never shipped"]} ]
         ++ [ {["summary" := "They listened"]} ])))%Q.
Proof.
  apply (trust_score_order_and_growth [ {["summary" := "Promised but never shipped"]} ]);
    by vm_compute.
Defined.

Lemma group_pairs_length {A} (groups : list A) :
  (2 * length (group_pairs groups) = length groups * (length groups - 1))%nat.
Proof.
  induction groups as [|g l IH]; [done|].
  cbn [group_pairs]. rewrite length_app, length_map. cbn [length]. nia.
Qed.

Lemma group_pairs_elem {A} (groups : list A) (a b : A) :
  (a, b) ∈ group_pairs groups
  <-> exists i j, (i < j)%nat /\ groups !! i = Some a /\ groups !! j = Some b.
Proof.
  revert a b. induction groups as [|g rest IH]; intros a b.
  - cbn [group_pairs]. rewrite elem_of_nil. split; [done|].
    intros (i & j & _ & H & _). discriminate H.
  - cbn [group_pairs]. rewrite elem_of_app, IH. split.
    + intros [H|(i & j & Hij & Hi & Hj)].
      * apply list_elem_of_fmap in H as (b' & [= -> ->] & Hb).
        apply list_elem_of_lookup in Hb as [k Hk].
        exists 0%nat, (S k). split; [lia|]. by split.
      * exists (S i), (S j). split; [lia|]. by split.
    + intros (i & j & Hij & Hi & Hj). destruct j as [|j]; [lia|].
      cbn [lookup list_lookup] in Hj. destruct i as [|i].
      * left. injection Hi as ->. apply list_elem_of_fmap. exists b. split; [done|].
        apply list_elem_of_lookup. by exists j.
      * right. exists i, j. split; [lia|]. by split.
Qed.

Lemma group_pairs_NoDup {A} (groups : list A) :
  NoDup groups -> NoDup (group_pairs groups).
Proof.
  induction groups as [|g rest IH]; intros Hnd; [apply NoDup_nil_2|].
  apply NoDup_cons in Hnd as [Hg Hrest]. cbn [group_pairs].
  apply NoDup_app. split; [|split; [|by apply IH]].
  - apply (NoDup_fmap_2_strong (pair g)); [|done]. by intros x y _ _ [= ->].
  - intros [a b] H1 H2.
    apply list_elem_of_fmap in H1 as (b' & [= -> ->] & _).
    apply group_pairs_elem in H2 as (i & j & _ & Hi & _).
    apply Hg. apply list_elem_of_lookup. by exists i.
Qed.

(** X16: [score_narrative_alignment] compares exactly the pairs of groups
    that stand at positions i < j of the dict, the earlier group first: no
    group with itself, and, the keys of a dict being distinct, no pair
    twice and none in both orders. That makes n(n-1)/2 comparisons for n
    groups. With fewer than two groups there is nothing to compare and
    the score is 0, so the overall readiness cannot exceed 0.8 whatever
    the other dimensions are. *)
Theorem narrative_alignment_pairs
    (calc : list story -> list story -> Q) (stories_by_group : list (string * list story)) :
  let n := length stories_by_group in
  (2 * length (alignment_scores calc stories_by_group) = n * (n - 1))%nat
  /\ ((n <= 1)%nat -> score_narrative_alignment calc stories_by_group = 0%Q)
  /\ ((n <= 1)%nat ->
      forall cr tf lo lc co : Q,
        (cr <= 1 -> tf <= 1 -> lo <= 1 -> lc <= 1 -> co <= 1 ->
         overall_score (scores (score_narrative_alignment calc stories_by_group)
                               cr tf lo lc co) <= 0.8)%Q)
  /\ alignment_scores calc stories_by_group
     = map (fun p => calc (snd (fst p)) (snd (snd p))) (group_pairs stories_by_group)
  /\ (forall group1 group2 : string * list story,
        (group1, group2) ∈ group_pairs stories_by_group
        <-> exists i j, (i < j)%nat /\ stories_by_group !! i = Some group1
                        /\ stories_by_group !! j = Some group2)
  /\ (NoDup (map fst stories_by_group) ->
      NoDup (group_pairs stories_by_group)
      /\ forall group1 group2 : string * list story,
           (group1, group2) ∈ group_pairs stories_by_group ->
           fst group1 <> fst group2
           /\ (group2, group1) ∉ group_pairs stories_by_group).
Proof.
  cbn zeta. split; [|split; [|split; [|split; [|split]]]].
  - unfold alignment_scores. rewrite length_map. apply group_pairs_length.
  - intros H. unfold score_narrative_alignment, alignment_scores.
    destruct stories_by_group as [|g [|g' l]]; simpl in *; try done; lia.
  - intros H cr tf lo lc co ? ? ? ? ?.
    assert (score_narrative_alignment calc stories_by_group = 0%Q) as ->.
    { unfold score_narrative_alignment, alignment_scores.
      destruct stories_by_group as [|g [|g' l]]; simpl in *; try done; lia. }
    rewrite overall_score_expand. unfold scores. lra.
  - reflexivity.
  - intros group1 group2. apply group_pairs_elem.
  - intros Hkeys. split.
    + apply group_pairs_NoDup. by apply (NoDup_fmap_1 fst).
    + assert (forall i j x y, stories_by_group !! i = Some x ->
                stories_by_group !! j = Some y -> fst x = fst y -> i = j) as Hinj.
      { intros i j x y Hi Hj Hxy.
        apply (NoDup_lookup (map fst stories_by_group) i j (fst x)); [done|..].
        - by rewrite list_lookup_fmap, Hi.
        - by rewrite list_lookup_fmap, Hj, Hxy. }
      intros group1 group2 H.
      apply group_pairs_elem in H as (i & j & Hij & Hi & Hj). split.
      * intros E. pose proof (Hinj _ _ _ _ Hi Hj E). lia.
      * intros H'. apply group_pairs_elem in H' as (i' & j' & Hij' & Hi' & Hj').
        pose proof (Hinj _ _ _ _ Hi Hj' eq_refl).
        pose proof (Hinj _ _ _ _ Hj Hi' eq_refl). lia.
Qed.

Lemma narrative_alignment_pairs_witness :
  NoDup (group_pairs [("engineering"%string, @nil story); ("sales"%string, []);
                      ("legal"%string, [])])
  /\ (("sales"%string, @nil story), ("engineering"%string, @nil story))
       ∉ group_pairs [("engineering"%string, @nil story); ("sales"%string, []);
                      ("legal"%string, [])].
Proof.
  destruct (narrative_alignment_pairs (fun _ _ => 1%Q)
              [("engineering"%string, @nil story); ("sales"%string, []);
               ("legal"%string, [])])
    as (_ & _ & _ & _ & Hpairs & Hkeys).
  assert (NoDup (map fst [("engineering"%string, @nil story); ("sales"%string, []);
                          ("legal"%string, [])])) as Hnd.
  { apply NoDup_ListNoDup. repeat constructor; simpl; intuition discriminate. }
  destruct (Hkeys Hnd) as [H1 H2]. split; [exact H1|].
  apply (H2 ("engineering"%string, []) ("sales"%string, [])).
  apply Hpairs. exists 0%nat, 1%nat. split; [lia|]. by split.
Defined.

(** X17: for scores in [0,1] the guide's [aggregate_scores] is the plain
    weighted sum with weights that add up to 1: the cap at 1.0 never
    changes the value, and the result lies in [0,1]. *)
Theorem aggregate_scores_in_range (dimension_scores : PatternDim -> Q) :
  (forall dim, 0 <= dimension_scores dim <= 1)%Q ->
  (aggregate_scores dimension_scores ==
     dimension_scores dimension_a * 0.3 + dimension_scores dimension_b * 0.3
     + dimension_scores dimension_c * 0.2 + dimension_scores dimension_d * 0.2)%Q
  /\ (0 <= aggregate_scores dimension_scores <= 1)%Q
  /\ (pattern_weights dimension_a + pattern_weights dimension_b
      + pattern_weights dimension_c + pattern_weights dimension_d == 1)%Q.
Proof.
  intros H.
  pose proof (H dimension_a). pose proof (H dimension_b).
  pose proof (H dimension_c). pose proof (H dimension_d).
  assert (aggregate_scores dimension_scores ==
     dimension_scores dimension_a * 0.3 + dimension_scores dimension_b * 0.3
     + dimension_scores dimension_c * 0.2 + dimension_scores dimension_d * 0.2)%Q as E.
  { unfold aggregate_scores. simpl. rewrite Q.min_l; [ring|]. lra. }
  split; [done|]. split; [rewrite E; split; lra|reflexivity].
Qed.

Lemma aggregate_scores_in_range_witness :
  (0 <= aggregate_scores (fun _ => 0.5%Q) <= 1)%Q.
Proof.
  apply (aggregate_scores_in_range (fun _ => 0.5%Q)).
  intros _. split; discriminate.
Defined.

End ScorerTheorems.

(** ** The guide's utilities *)

Section GuideUtilitiesTheorems.
Import GuideUtilities.

Lemma counter_add_keys (counts : list (string * nat)) (item : string) :
  (counter_add counts item).*1
  = if decide (item ∈ counts.*1) then counts.*1 else counts.*1 ++ [item].
Proof.
  induction counts as [|[key count] rest IH]; [done|].
  cbn [counter_add]. destruct (String.eqb_spec key item) as [->|Hne].
  - cbn [fmap list_fmap fst]. rewrite decide_True; [done|by left].
  - cbn [fmap list_fmap fst] in *. rewrite IH.
    destruct (decide (item ∈ rest.*1)) as [Hin|Hnin].
    + rewrite decide_True; [done|by right].
    + rewrite decide_False; [done|]. rewrite elem_of_cons. intros [?|?]; congruence.
Qed.

Lemma counter_add_NoDup (counts : list (string * nat)) (item : string) :
  NoDup counts.*1 -> NoDup (counter_add counts item).*1.
Proof.
  intros H. rewrite counter_add_keys. destruct (decide (item ∈ counts.*1)); [done|].
  apply NoDup_app. repeat split; [done| |apply NoDup_singleton].
  intros x Hx Hx'. apply list_elem_of_singleton in Hx'. by subst.
Qed.

Lemma counter_add_map (counts : list (string * nat)) (item : string) :
  (list_to_map (counter_add counts item) : gmap string nat)
  = <[item := S (default 0%nat ((list_to_map counts : gmap string nat) !! item))]>
      (list_to_map counts).
Proof.
  induction counts as [|[key count] rest IH]; [done|].
  cbn [counter_add]. destruct (String.eqb_spec key item) as [->|Hne].
  - cbn [list_to_map foldr uncurry fst snd curry]. simpl.
    rewrite lookup_insert_eq. simpl. by rewrite insert_insert_eq.
  - simpl. rewrite IH, lookup_insert_ne by done. by apply insert_insert_ne.
Qed.

Lemma counter_add_sum (counts : list (string * nat)) (item : string) :
  sum_list (counter_add counts item).*2 = S (sum_list counts.*2).
Proof.
  induction counts as [|[key count] rest IH]; [done|].
  cbn [counter_add]. destruct (String.eqb key item); csimpl in *; [done|].
  rewrite IH. lia.
Qed.

Lemma Counter_snoc (items : list string) (item : string) :
  Counter (items ++ [item]) = counter_add (Counter items) item.
Proof. unfold Counter. by rewrite fold_left_app. Qed.

Lemma Counter_NoDup (items : list string) : NoDup (Counter items).*1.
Proof.
  induction items as [|item items IH] using rev_ind; [apply NoDup_nil_2|].
  rewrite Counter_snoc. by apply counter_add_NoDup.
Qed.

Lemma Counter_sum (items : list string) :
  sum_list (Counter items).*2 = length items.
Proof.
  induction items as [|item items IH] using rev_ind; [done|].
  rewrite Counter_snoc, counter_add_sum, IH, length_app. simpl. lia.
Qed.

Lemma Counter_lookup (items : list string) (item : string) :
  (list_to_map (Counter items) : gmap string nat) !! item
  = if decide (item ∈ items) then Some (count_occ string_dec items item) else None.
Proof.
  induction items as [|x items IH] using rev_ind; [done|].
  rewrite Counter_snoc, counter_add_map, count_occ_app.
  destruct (decide (item = x)) as [->|Hne].
  - rewrite lookup_insert_eq, IH. rewrite (decide_True (P := x ∈ items ++ [x])).
    2:{ apply elem_of_app. right. by left. }
    f_equal. cbn [count_occ]. destruct (string_dec x x) as [_|?]; [|done].
    destruct (decide (x ∈ items)) as [Hin|Hnin]; simpl; [lia|].
    rewrite (proj1 (count_occ_not_In string_dec items x)); [lia|].
    by rewrite <- list_elem_of_In.
  - rewrite lookup_insert_ne, IH by done. cbn [count_occ].
    destruct (string_dec x item) as [?|_]; [congruence|].
    destruct (decide (item ∈ items)) as [Hin|Hnin].
    + rewrite decide_True; [f_equal; lia|]. apply elem_of_app. by left.
    + rewrite decide_False; [done|]. rewrite elem_of_app, list_elem_of_singleton.
      intros [?|?]; congruence.
Qed.

Lemma Counter_elem (items : list string) (item : string) (count : nat) :
  (item, count) ∈ Counter items
  <-> item ∈ items /\ count = count_occ string_dec items item.
Proof.
  rewrite (elem_of_list_to_map (M := gmap string)) by apply Counter_NoDup.
  rewrite Counter_lookup. destruct (decide (item ∈ items)); split.
  - intros [= <-]. done.
  - by intros [_ ->].
  - done.
  - by intros [? _].
Qed.

Lemma select_common_nonzero (counts : list (string * nat)) (total : Z) (threshold : Q) :
  total <> 0%Z ->
  select_common counts total threshold
  = Returns (List.filter
               (fun entry => Qle_bool threshold
                               (inject_Z (Z.of_nat entry.2) / inject_Z total))
               counts).*1.
Proof.
  intros Ht. induction counts as [|[item count] rest IH]; [done|].
  cbn [select_common List.filter]. unfold truediv.
  destruct (Z.eqb_spec total 0) as [?|_]; [done|].
  rewrite IH. simpl.
  by destruct (Qle_bool threshold (inject_Z (Z.of_nat count) / inject_Z total)).
Qed.

(** X18: [most_common_with_threshold] never raises, the empty list
    included: it returns items of the input, each one once, and an item is
    returned exactly when its number of occurrences divided by the length
    of the input reaches the threshold. *)
Theorem most_common_with_threshold_spec (items : list string) (threshold : Q) :
  exists result,
    most_common_with_threshold items threshold = Returns result
    /\ NoDup result
    /\ forall item,
         item ∈ result
         <-> item ∈ items
             /\ (threshold <= inject_Z (Z.of_nat (count_occ string_dec items item))
                              / inject_Z (Z.of_nat (length items)))%Q.
Proof.
  unfold most_common_with_threshold. destruct items as [|x items].
  - exists []. split; [done|]. split; [apply NoDup_nil_2|].
    intros item. rewrite elem_of_nil. tauto.
  - rewrite select_common_nonzero by (simpl; lia).
    eexists. split; [done|]. split.
    + apply (sublist_NoDup _ (Counter (x :: items)).*1); [apply Counter_NoDup|].
      apply fmap_sublist. clear. induction (Counter (x :: items)) as [|e l IH]; [constructor|].
      cbn [List.filter]. destruct (Qle_bool _ _); by constructor.
    + intros item. rewrite list_elem_of_fmap. split.
      * intros ([k c] & -> & H). rewrite list_elem_of_In, List.filter_In in H.
        destruct H as [H1 H2]. rewrite <- list_elem_of_In, Counter_elem in H1.
        destruct H1 as [H1 ->]. simpl in *. split; [done|].
        by apply Qle_bool_iff.
      * intros [H1 H2]. exists (item, count_occ string_dec (x :: items) item).
        split; [done|]. rewrite list_elem_of_In, List.filter_In.
        rewrite <- list_elem_of_In, Counter_elem. split; [done|].
        by apply Qle_bool_iff.
Qed.

Lemma threshold_filter_sum (counts : list (string * nat)) (total : Z) (threshold : Q) :
  (0 < total)%Z ->
  (inject_Z (Z.of_nat (length (List.filter
      (fun entry => Qle_bool threshold (inject_Z (Z.of_nat entry.2) / inject_Z total))
      counts))) * (threshold * inject_Z total)
   <= inject_Z (Z.of_nat (sum_list counts.*2)))%Q.
Proof.
  intros Ht. pose proof (inject_Z_pos total Ht) as Ht'.
  induction counts as [|[item count] rest IH].
  - cbn [List.filter length]. csimpl. change (inject_Z (Z.of_nat 0)) with 0%Q. lra.
  - cbn [List.filter]. csimpl. rewrite Nat2Z.inj_add, inject_Z_plus.
    assert (0 <= inject_Z (Z.of_nat count))%Q as Hc.
    { change 0%Q with (inject_Z 0). rewrite <- Zle_Qle. lia. }
    destruct (Qle_bool _ _) eqn:E.
    + apply Qle_bool_iff in E.
      assert (threshold * inject_Z total <= inject_Z (Z.of_nat count))%Q as Hle.
      { setoid_replace (inject_Z (Z.of_nat count))
          with (inject_Z (Z.of_nat count) / inject_Z total * inject_Z total)%Q
          using relation Qeq by (field; lra).
        apply Qmult_le_compat_r; [done|lra]. }
      cbn [length]. rewrite Nat2Z.inj_succ, <- Z.add_1_r, inject_Z_plus.
      change (inject_Z 1) with 1%Q. lra.
    + lra.
Qed.

(** X19: with exact division, a positive threshold bounds the size of the
    result of [most_common_with_threshold]: the number of returned items
    times the threshold is at most 1 (at most two items for 0.5, at most
    ten for 0.1). *)
Theorem most_common_with_threshold_bound
    (items : list string) (threshold : Q) (result : list string) :
  (0 < threshold)%Q ->
  most_common_with_threshold items threshold = Returns result ->
  (inject_Z (Z.of_nat (length result)) * threshold <= 1)%Q.
Proof.
  intros Hthr. unfold most_common_with_threshold. destruct items as [|x items].
  - intros [= <-]. cbn [length]. change (inject_Z (Z.of_nat 0)) with 0%Q. lra.
  - rewrite select_common_nonzero by (simpl; lia). intros [= <-].
    rewrite length_fmap.
    assert (0 < Z.of_nat (length (x :: items)))%Z as Ht by (simpl; lia).
    pose proof (threshold_filter_sum (Counter (x :: items)) _ threshold Ht) as H.
    rewrite Counter_sum in H. apply inject_Z_pos in Ht.
    assert (forall n t : Q, 0 < t -> n * (threshold * t) <= t -> n * threshold <= 1)%Q
      as Hdiv.
    { intros n t Ht' Hn. apply (Qmult_le_r _ _ t); [done|]. lra. }
    apply (Hdiv _ _ Ht). exact H.
Qed.

Lemma most_common_with_threshold_bound_witness :
  (inject_Z (Z.of_nat (length ["delay"; "budget"]%string)) * 0.4 <= 1)%Q.
Proof.
  apply (most_common_with_threshold_bound
           ["delay"; "budget"; "delay"; "budget"; "trust"]%string 0.4);
    reflexivity.
Defined.

Lemma lower_ascii_not_upper (c : ascii) :
  let n := nat_of_ascii (lower_ascii c) in
  ((65 <=? n)%nat && (n <=? 90)%nat) = false.
Proof. destruct c as [[] [] [] [] [] [] [] []]; reflexivity. Qed.

Lemma has_upper_lower (s : string) : has_upper (lower s) = false.
Proof.
  induction s as [|c s IH]; [done|].
  cbn [lower has_upper]. by rewrite lower_ascii_not_upper, IH.
Qed.

Lemma has_upper_app (s t : string) :
  has_upper (s ++ t) = has_upper s || has_upper t.
Proof.
  induction s as [|c s IH]; [done|].
  rewrite append_cons. cbn [has_upper]. by rewrite IH, orb_assoc.
Qed.

Lemma str_includes_empty (s : string) : str_includes s "" = true.
Proof. by destruct s. Qed.

(** X20: [contains_keywords] answers yes exactly when [extract_keywords]
    finds something; a keyword is extracted exactly when it is in the list
    and occurs in the lower-cased text. Only the text is lower-cased: a
    keyword with an upper-case letter is never found, and the empty
    keyword is found in every text. *)
Theorem keywords_found (text : string) (keyword_list : list string) :
  (contains_keywords text keyword_list = true
   <-> extract_keywords text keyword_list <> ∅)
  /\ (forall kw, kw ∈ extract_keywords text keyword_list
                 <-> kw ∈ keyword_list /\ occurs_in kw (lower text))
  /\ (forall kw, has_upper kw = true -> kw ∉ extract_keywords text keyword_list)
  /\ (""%string ∈ keyword_list -> contains_keywords text keyword_list = true).
Proof.
  assert (forall kw, kw ∈ extract_keywords text keyword_list
                     <-> kw ∈ keyword_list /\ occurs_in kw (lower text)) as Hspec.
  { intros kw. unfold extract_keywords. rewrite elem_of_list_to_set.
    rewrite list_elem_of_In, List.filter_In, <- list_elem_of_In.
    by rewrite str_includes_occurs. }
  assert (forall l, contains_keywords text l = true
                    <-> exists kw, kw ∈ l /\ occurs_in kw (lower text)) as Hany.
  { intros l. unfold contains_keywords. rewrite existsb_exists.
    by setoid_rewrite str_includes_occurs; setoid_rewrite <- list_elem_of_In. }
  split; [|split; [done|split]].
  - rewrite Hany. split.
    + intros (kw & H1 & H2) He. assert (kw ∈ extract_keywords text keyword_list) as H
        by by apply Hspec.
      rewrite He in H. by apply not_elem_of_empty in H.
    + intros H. apply set_choose_L in H as [kw H]. exists kw. by apply Hspec.
  - intros kw Hup H. apply Hspec in H as [_ (pre & post & H)].
    pose proof (has_upper_lower text) as Hl.
    rewrite H, !has_upper_app, Hup, orb_true_r in Hl. discriminate Hl.
  - intros H. apply Hany. exists ""%string. split; [done|].
    apply str_includes_occurs, str_includes_empty.
Qed.

Lemma Qgtb_le x y : Qgtb x y = false <-> (x <= y)%Q.
Proof.
  unfold Qgtb. rewrite negb_false_iff. apply Qle_bool_iff.
Qed.

Lemma sentiment_rank_values :
  sentiment_rank "very negative" = 0%nat /\ sentiment_rank "negative" = 1%nat
  /\ sentiment_rank "neutral" = 2%nat /\ sentiment_rank "positive" = 3%nat
  /\ sentiment_rank "very positive" = 4%nat.
Proof. by repeat split. Qed.

Ltac sentiment_cases :=
  unfold categorize_sentiment;
  repeat match goal with
    | |- context [Qgtb ?x ?y] =>
        let E := fresh "E" in
        destruct (Qgtb x y) eqn:E; [apply Qgtb_lt in E|apply Qgtb_le in E]
    end;
  destruct sentiment_rank_values as (R0 & R1 & R2 & R3 & R4);
  rewrite ?R0, ?R1, ?R2, ?R3, ?R4; clear R0 R1 R2 R3 R4.

(** X21: [categorize_sentiment] is monotone: a higher sentiment never gets
    a lower category. The thresholds belong to the lower category (0.5 is
    'positive', -0.5 is 'very negative'), so negating a sentiment mirrors
    its category except at the four threshold values. *)
Theorem categorize_sentiment_order (a b : Q) :
  ((a <= b)%Q ->
   (sentiment_rank (categorize_sentiment a)
    <= sentiment_rank (categorize_sentiment b))%nat)
  /\ ((sentiment_rank (categorize_sentiment (- a))
       + sentiment_rank (categorize_sentiment a) = 4)%nat
      <-> ~ (a == 0.5 \/ a == 0.2 \/ a == -0.2 \/ a == -0.5)%Q).
Proof.
  split.
  - intros H. sentiment_cases; first [lia|exfalso; lra].
  - sentiment_cases; (split; [intros H Hor|intros Hn]);
      first [ lia
            | exfalso; lra
            | destruct Hor as [Hor|[Hor|[Hor|Hor]]]; lra
            | exfalso; apply Hn; left; lra
            | exfalso; apply Hn; right; left; lra
            | exfalso; apply Hn; right; right; left; lra
            | exfalso; apply Hn; right; right; right; lra ].
Qed.

Lemma categorize_sentiment_order_witness :
  (sentiment_rank (categorize_sentiment 0.2)
   <= sentiment_rank (categorize_sentiment 0.5))%nat.
Proof. apply (categorize_sentiment_order 0.2 0.5). discriminate. Defined.

End GuideUtilitiesTheorems.

(** ** The chat hook and the chat page *)

Section ChatTheorems.
Import JS useChat ChatPage.

Lemma trim_start_empty (s : string) :
  trim_start s = ""%string
  <-> forallb is_whitespace (list_ascii_of_string s) = true.
Proof.
  induction s as [|c s IH]; [done|].
  cbn [trim_start list_ascii_of_string forallb].
  destruct (is_whitespace c); [by rewrite IH|]. split; intros H; discriminate H.
Qed.

Lemma trim_end_nonempty (c : ascii) (s : string) :
  is_whitespace c = false -> trim_end (String c s) <> ""%string.
Proof. intros H. cbn [trim_end]. rewrite H. by destruct (trim_end s). Qed.

Lemma trim_start_head (s : string) :
  match trim_start s with
  | EmptyString => True
  | String c _ => is_whitespace c = false
  end.
Proof.
  induction s as [|c s IH]; [done|].
  cbn [trim_start]. by destruct (is_whitespace c) eqn:E.
Qed.

Lemma trim_empty (s : string) :
  trim s = ""%string <-> forallb is_whitespace (list_ascii_of_string s) = true.
Proof.
  rewrite <- trim_start_empty. unfold trim.
  pose proof (trim_start_head s) as H. destruct (trim_start s) as [|c t]; [done|].
  split; [|intros E; discriminate E]. intros E. by apply trim_end_nonempty in E.
Qed.

Lemma blank_guard (s : string) :
  negb (truthy (JString (trim s))) = forallb is_whitespace (list_ascii_of_string s).
Proof.
  cbn [truthy]. rewrite negb_involutive.
  destruct (String.eqb_spec (trim s) "") as [E|E].
  - symmetry. by apply trim_empty.
  - destruct (forallb _ _) eqn:F; [|done]. by apply trim_empty in F.
Qed.

(** X22: [sendMessage] leaves the state of the hook as it is exactly when
    the text holds nothing but white space: no message is added, no request
    is made, and an error shown before stays shown. *)
Theorem sendMessage_blank_iff
    (server : ChatRequest -> Completion JsError JValue) (clock : Clock)
    (state : State) (content : string) :
  sendMessage server clock state content = state
  <-> forallb is_whitespace (list_ascii_of_string content) = true.
Proof.
  unfold sendMessage. rewrite blank_guard.
  destruct (forallb _ _); split; try done.
  intros H. apply (f_equal (fun s => length (messages s))) in H.
  destruct (_ ≫= _); cbn [messages] in H; rewrite !length_app in H; simpl in H; lia.
Qed.

(** X23: a text that is not blank adds two messages, the trimmed text as
    the user's and one from the assistant, whether the request succeeds or
    not, and the hook stops loading. No error is recorded exactly when the
    server answered with a body that is neither [null] nor [undefined];
    otherwise the assistant's message is the apology with the error's
    message, and the conversation id, the sources and the follow-ups stay
    those of the previous answer. *)
Theorem sendMessage_outcome
    (server : ChatRequest -> Completion JsError JValue) (clock : Clock)
    (state : State) (content : string) :
  forallb is_whitespace (list_ascii_of_string content) = false ->
  let state' := sendMessage server clock state content in
  exists sent reply,
    messages state' = messages state ++ [sent; reply]
    /\ role sent = user /\ useChat.content sent = JString (trim content)
    /\ role reply = assistant
    /\ isLoading state' = false
    /\ (error state' = None
        <-> exists data, server (build_request state content) = Returns data
                         /\ data <> JNull /\ data <> JUndefined)
    /\ (forall text, error state' = Some text ->
          useChat.content reply
            = JString ("Sorry, I encountered an error: " ++ text ++ ". Please try again.")
          /\ conversationId state' = conversationId state
          /\ sources state' = sources state
          /\ suggestedFollowups state' = suggestedFollowups state).
Proof.
  intros Hblank. unfold sendMessage. rewrite blank_guard, Hblank.
  unfold chatAPI.sendMessage, chatAPI.log_chat_response.
  destruct (server (build_request state content)) as [data|err]; cbn zeta.
  - destruct data; simpl; rewrite <- app_assoc; do 2 eexists;
      (split; [reflexivity|]); repeat split; try done;
      try (intros (data & [= <-] & ? & ?); done);
      try (intros _; eexists; repeat split; done);
      try by simplify_eq.
  - simpl. rewrite <- app_assoc. do 2 eexists. split; [reflexivity|].
    repeat split; try done; try by simplify_eq.
    intros (data & [=] & _).
Qed.

Lemma sendMessage_outcome_witness :
  exists sent reply,
    messages (sendMessage (fun _ => Throws (AxiosError "Network Error"))
                {| sent_id := 1700000000000; sent_at := 1700000000000;
                   answered_id := 1700000000450; answered_at := 1700000000450 |}
                initial " Are we risk-averse? ")
    = [sent; reply]
    /\ useChat.content sent = JString "Are we risk-averse?"
    /\ useChat.content reply
       = JString "Sorry, I encountered an error: Network Error. Please try again.".
Proof.
  destruct (sendMessage_outcome (fun _ => Throws (AxiosError "Network Error"))
              {| sent_id := 1700000000000; sent_at := 1700000000000;
                 answered_id := 1700000000450; answered_at := 1700000000450 |}
              initial " Are we risk-averse? " eq_refl)
    as (sent & reply & H1 & H2 & H3 & H4 & H5 & H6 & H7).
  exists sent, reply. split; [exact H1|]. split; [exact H3|].
  exact (proj1 (H7 "Network Error"%string eq_refl)).
Defined.

(** X24: what a request carries. The text goes out as typed, not trimmed;
    the history is the role and content of the last ten messages of the
    render, fewer when there are fewer, and never the message being sent.
    Once the hook holds a conversation id, every request carries it and no
    answer replaces it. *)
Theorem request_contents
    (server : ChatRequest -> Completion JsError JValue) (clock : Clock)
    (state : State) (content : string) :
  let request := build_request state content in
  message request = content
  /\ length (conversation_history request) = min 10 (length (messages state))
  /\ conversation_history request `suffix_of` map history_entry (messages state)
  /\ (truthy (conversationId state) = true ->
      conversation_id request = conversationId state
      /\ conversationId (sendMessage server clock state content)
         = conversationId state)
  /\ (truthy (conversationId state) = false ->
      conversation_id request = JUndefined).
Proof.
  cbn zeta. unfold build_request, slice_last. cbn [message conversation_history conversation_id].
  split; [done|]. split; [rewrite length_map, length_drop; lia|].
  split; [|split].
  - exists (map history_entry (take (length (messages state) - 10) (messages state))).
    by rewrite <- List.map_app, take_drop.
  - intros H. unfold js_or. rewrite H. split; [done|].
    unfold sendMessage. destruct (negb _); [done|].
    destruct (_ ≫= _); cbn [conversationId]; [|done].
    by rewrite H, andb_false_r.
  - intros H. unfold js_or. by rewrite H.
Qed.

Lemma request_contents_witness :
  conversation_id
    (build_request
       {| messages := []; isLoading := false; error := None;
          conversationId := JString "c-42"; sources := JArray [];
          suggestedFollowups := JArray [] |} "and then?")
  = JString "c-42".
Proof.
  apply (request_contents (fun _ => Throws (AxiosError "Network Error"))
           {| sent_id := 0; sent_at := 0; answered_id := 0; answered_at := 0 |}
           {| messages := []; isLoading := false; error := None;
              conversationId := JString "c-42"; sources := JArray [];
              suggestedFollowups := JArray [] |} "and then?").
  reflexivity.
Defined.

Lemma sendMessage_nonblank
    (server : ChatRequest -> Completion JsError JValue) (clock : Clock)
    (state : State) (content : string) :
  forallb is_whitespace (list_ascii_of_string content) = false ->
  let state' := sendMessage server clock state content in
  exists sent reply,
    messages state' = messages state ++ [sent; reply]
    /\ role sent = user /\ useChat.content sent = JString (trim content)
    /\ role reply = assistant
    /\ isLoading state' = false
    /\ (conversationId state' = conversationId state
        \/ truthy (conversationId state') = true)
    /\ useChat.id sent = sent_id clock
    /\ useChat.id reply = (answered_id clock + 1)%Z.
Proof.
  intros Hblank. unfold sendMessage. rewrite blank_guard, Hblank.
  destruct (_ ≫= _) as [response|err]; cbn zeta; simpl; rewrite <- app_assoc;
    do 2 eexists; (split; [reflexivity|]); repeat split; try done;
    cbn [conversationId]; [|by left].
  destruct (truthy (get_prop response "conversation_id")) eqn:E; [|by left].
  destruct (truthy (conversationId state)); simpl; [by left|by right].
Qed.

Lemma alternate_snoc (l : list ChatMessage) (sent reply : ChatMessage) :
  role sent = user -> role reply = assistant ->
  (exists n, length l = 2 * n)%nat ->
  (forall i msg, l !! i = Some msg ->
     role msg = if Nat.even i then user else assistant) ->
  forall i msg, (l ++ [sent; reply]) !! i = Some msg ->
    role msg = if Nat.even i then user else assistant.
Proof.
  intros Hs Hr [n Hn] Hl i msg H.
  apply lookup_app_Some in H as [H|[Hle H]]; [by apply Hl|].
  replace i with ((i - length l) + 2 * n)%nat by lia.
  rewrite Nat.even_add_mul_2.
  destruct (i - length l)%nat as [|[|k]]; simpl in H.
  - by injection H as <-.
  - by injection H as <-.
  - done.
Qed.

(** X25: in every session of the chat page, whatever the server answers,
    the messages come in pairs: a user message at each even position, an
    assistant message at each odd one; the user messages are trimmed
    texts that are not empty; between two actions the hook is not loading;
    and the conversation id is [null] or a truthy value. *)
Theorem session_invariants (actions : list Action) :
  let state := session actions in
  isLoading state = false
  /\ (exists n, length (messages state) = 2 * n)%nat
  /\ (forall i msg, messages state !! i = Some msg ->
        role msg = if Nat.even i then user else assistant)
  /\ (forall msg, msg ∈ messages state -> role msg = user ->
        exists text, useChat.content msg = JString (trim text)
                     /\ trim text <> ""%string)
  /\ (conversationId state = JNull \/ truthy (conversationId state) = true).
Proof.
  cbn zeta. unfold session.
  induction actions as [|a actions IH] using rev_ind.
  - simpl. repeat split; try done.
    + by exists 0%nat.
    + intros msg H. by apply elem_of_nil in H.
    + by left.
  - rewrite fold_left_app. cbn [fold_left].
    destruct IH as (Hload & Hlen & Halt & Huser & Hid).
    set (state := fold_left act actions initial) in *. clearbody state.
    destruct a as [server clock input|]; cbn [act].
    + unfold handleSend. rewrite Hload, orb_false_r.
      destruct (negb (truthy (JString (trim input)))) eqn:Hblank; cbn [snd].
      { done. }
      rewrite blank_guard in Hblank.
      destruct (sendMessage_nonblank server clock state input Hblank)
        as (sent & reply & Hm & Hs & Hc & Hr & Hl & Hcid & _).
      split; [done|]. rewrite Hm. split; [|split; [|split]].
      * destruct Hlen as [n Hn]. exists (S n). rewrite length_app, Hn. simpl. lia.
      * by apply alternate_snoc.
      * intros msg Hin Hrole. apply elem_of_app in Hin as [Hin|Hin]; [by apply Huser|].
        apply elem_of_cons in Hin as [->|Hin].
        { exists input. split; [done|]. intros E. apply trim_empty in E. congruence. }
        apply list_elem_of_singleton in Hin as ->. congruence.
      * destruct Hcid as [->|Hcid]; [done|by right].
    + simpl. repeat split; try done.
      * by exists 0%nat.
      * intros msg H. by apply elem_of_nil in H.
      * by left.
Qed.

(** X26: the ids of the messages, which the page uses as keys. A call
    made after every stored message was stamped, with a clock that does
    not run backwards during the call, keeps the ids distinct; a text sent
    at a clock reading that equals a stored id (one millisecond after the
    reply before it was stamped, since a reply's id is its reading plus 1)
    gives two messages the same id. *)
Theorem message_ids
    (server : ChatRequest -> Completion JsError JValue) (clock : Clock)
    (state : State) (content : string) :
  forallb is_whitespace (list_ascii_of_string content) = false ->
  let ids := fun s : State => map useChat.id (messages s) in
  (NoDup (ids state) ->
   (forall stored, stored ∈ ids state -> (stored < sent_id clock)%Z) ->
   (sent_id clock <= answered_id clock)%Z ->
   NoDup (ids (sendMessage server clock state content)))
  /\ (sent_id clock ∈ ids state ->
      ~ NoDup (ids (sendMessage server clock state content))).
Proof.
  intros Hblank. cbn zeta.
  destruct (sendMessage_nonblank server clock state content Hblank)
    as (sent & reply & -> & _ & _ & _ & _ & _ & Hs & Hr).
  rewrite List.map_app. cbn [map]. rewrite Hs, Hr. split.
  - intros Hnd Hlt Hclock. apply NoDup_app. split; [done|]. split.
    + intros stored Hin Hin'. apply Hlt in Hin.
      rewrite !elem_of_cons, elem_of_nil in Hin'. lia.
    + apply NoDup_cons. split; [|apply NoDup_singleton].
      rewrite list_elem_of_singleton. lia.
  - intros Hin Hnd. apply NoDup_app in Hnd as (_ & Hnd & _).
    apply (Hnd _ Hin). by left.
Qed.

Lemma message_ids_witness :
  ~ NoDup (map useChat.id
             (messages
                (sendMessage (fun _ => Throws (AxiosError "Network Error"))
                   {| sent_id := 1700000000451; sent_at := 1700000000451;
                      answered_id := 1700000000900; answered_at := 1700000000900 |}
                   (sendMessage (fun _ => Throws (AxiosError "Network Error"))
                      {| sent_id := 1700000000000; sent_at := 1700000000000;
                         answered_id := 1700000000450; answered_at := 1700000000450 |}
                      initial "one")
                   "two"))).
Proof.
  apply (message_ids (fun _ => Throws (AxiosError "Network Error"))
           {| sent_id := 1700000000451; sent_at := 1700000000451;
              answered_id := 1700000000900; answered_at := 1700000000900 |}
           (sendMessage (fun _ => Throws (AxiosError "Network Error"))
              {| sent_id := 1700000000000; sent_at := 1700000000000;
                 answered_id := 1700000000450; answered_at := 1700000000450 |}
              initial "one")
           "two"); [reflexivity|].
  simpl. right. by left.
Defined.

End ChatTheorems.
